(** * Lifecycle of Nokogiri::XML::Namespace wrappers

    A shallow embedding of [ext/nokogiri/xml_namespace.c]: the libxml2
    records the file reads and writes, the part of the Ruby object space it
    allocates in, and the five C functions of the file, written in a small
    state-and-failure monad over the two heaps. *)

From stdpp Require Import gmap strings list fin_maps.

Local Open Scope Z_scope.

(** ** Machine values *)

(** A C pointer is an address; [NULL] is address 0.  A Ruby [VALUE] is a
    machine word as well: heap objects are addresses in the object space,
    and [Qnil] is the special constant 8 (64-bit builds with flonum
    support). *)
Abbreviation ptr := Z (only parsing).
Abbreviation VALUE := Z (only parsing).

Definition NULL : ptr := 0.
Definition Qnil : VALUE := 8.

(** libxml2's [xmlElementType] tags that the file mentions. *)
Definition XML_DOCUMENT_NODE : Z := 9.
Definition XML_DOCUMENT_FRAG_NODE : Z := 11.
Definition XML_HTML_DOCUMENT_NODE : Z := 13.
Definition XML_NAMESPACE_DECL : Z := 18.

(** ** libxml2 records *)

Module xmlNs.
(** [struct _xmlNs]: the fields in declaration order. *)
Record t := mk {
  next : ptr;
  type : Z;
  href : ptr;
  prefix : ptr;
  _private : ptr;
  context : ptr
}.

Definition set__private (v : ptr) (n : t) : t :=
  mk (next n) (type n) (href n) (prefix n) v (context n).

Definition set_next (p : ptr) (n : t) : t :=
  mk p (type n) (href n) (prefix n) (_private n) (context n).
End xmlNs.

Module xmlDoc.
(** [struct _xmlDoc]: the three fields the file touches. *)
Record t := mk {
  _private : ptr;
  type : Z;
  doc : ptr
}.
End xmlDoc.

Module nokogiriTuple.
(** The tuple a wrapped document keeps in its [_private] slot; [doc] is
    the Ruby document object. *)
Record t := mk { doc : VALUE }.
End nokogiriTuple.

(** What lives at an address of the native heap.  Every libxml2 node starts
    with a pointer-sized member followed by its [type] tag, so the tag of a
    [CNode] (an element, an attribute, ...) can be read through an
    [xmlNsPtr]; nothing else of such a node is read here. *)
Inductive cell :=
  | CNs (n : xmlNs.t)
  | CDoc (d : xmlDoc.t)
  | CNode (type : Z)
  | CTuple (t : nokogiriTuple.t)
  | CStr (s : string).

(** ** Ruby objects *)

(** C functions whose address is stored in a [T_DATA] object. *)
Inductive cfunc := fn_dealloc_namespace.

Inductive rbody :=
  | T_OBJECT
  | T_DATA (dmark dfree : option cfunc) (data : ptr)
  | T_ARRAY (elts : list VALUE)
  | T_STRING (s : string).

Record RObject := mkRObject {
  klass : VALUE;
  ivars : gmap string VALUE;
  body : rbody
}.

(** ** Program state *)

Record state := mkState {
  native : gmap Z cell;            (* memory handed out by xmlMalloc *)
  objspace : gmap Z RObject;       (* the Ruby object space *)
  freed : list ptr;                (* arguments of the xmlFree calls so far *)
  cNokogiriXmlNamespace : VALUE    (* the global of that name *)
}.

Definition with_native (f : gmap Z cell → gmap Z cell) (s : state) : state :=
  mkState (f (native s)) (objspace s) (freed s) (cNokogiriXmlNamespace s).

Definition with_objspace (f : gmap Z RObject → gmap Z RObject) (s : state) : state :=
  mkState (native s) (f (objspace s)) (freed s) (cNokogiriXmlNamespace s).

(** ** The monad

    A call either returns a value and a new state, stops at a failed
    [assert], or faults (a dereference of memory that is not there, a Ruby
    API call on an object of the wrong kind). *)

Inductive outcome (A : Type) :=
  | Ok (a : A) (s : state)
  | AssertFail
  | Fault.
Arguments Ok {A} a s.
Arguments AssertFail {A}.
Arguments Fault {A}.

Definition M (A : Type) : Type := state → outcome A.

Definition ret {A} (a : A) : M A := λ s, Ok a s.

Definition bind {A B} (m : M A) (k : A → M B) : M B :=
  λ s, match m s with
       | Ok a s' => k a s'
       | AssertFail => AssertFail
       | Fault => Fault
       end.

Notation "'do' x <- m ; k" := (bind m (λ x, k))
  (at level 10, x name, m at level 100, k at level 200,
   format "'[v' 'do'  x  <-  m ; '/' k ']'").
Notation "m ;; k" := (bind m (λ _, k))
  (at level 100, k at level 200, right associativity).

Definition lift_option {A} (f : state → option A) : M A :=
  λ s, match f s with Some a => Ok a s | None => Fault end.

(** ** Native memory primitives *)

(** [p->field] for [p : xmlNsPtr]. *)
Definition ns_get {A} (field : xmlNs.t → A) (p : ptr) : M A :=
  lift_option (λ s, match native s !! p with
                    | Some (CNs n) => Some (field n)
                    | _ => None
                    end).

(** [p->field] for [p : xmlDocPtr]. *)
Definition doc_get {A} (field : xmlDoc.t → A) (p : ptr) : M A :=
  lift_option (λ s, match native s !! p with
                    | Some (CDoc d) => Some (field d)
                    | _ => None
                    end).

(** The [type] tag of a cell, for the cells that are libxml2 nodes. *)
Definition cell_type (c : cell) : option Z :=
  match c with
  | CNs n => Some (xmlNs.type n)
  | CDoc d => Some (xmlDoc.type d)
  | CNode t => Some t
  | _ => None
  end.

(** [p->type] read through a node pointer of any static type. *)
Definition node_type (p : ptr) : M Z :=
  lift_option (λ s, native s !! p ≫= cell_type).

(** [p->_private = v] for [p : xmlNsPtr]. *)
Definition ns_set__private (p : ptr) (v : ptr) : M unit :=
  λ s, match native s !! p with
       | Some (CNs n) =>
           Ok tt (with_native <[p := CNs (xmlNs.set__private v n)]> s)
       | _ => Fault
       end.

(** [xmlFree(p)]: the block must be live; it is gone afterwards. *)
Definition xmlFree (p : ptr) : M unit :=
  λ s, match native s !! p with
       | Some _ =>
           Ok tt (mkState (delete p (native s)) (objspace s)
                          (freed s ++ [p]) (cNokogiriXmlNamespace s))
       | None => Fault
       end.

(** ** Ruby API primitives *)

(** The address of the next object: above every live object, and clear of
    the special constants. *)
Definition rb_newobj_addr (objs : gmap Z RObject) : VALUE :=
  map_fold (λ k _ acc, Z.max k acc) Qnil objs + 8.

Definition rb_newobj (o : RObject) : M VALUE :=
  λ s, let v := rb_newobj_addr (objspace s) in
       Ok v (with_objspace <[v := o]> s).

(** [Data_Wrap_Struct(klass, mark, free, ptr)]. *)
Definition Data_Wrap_Struct (k : VALUE) (mark free : option cfunc) (p : ptr)
  : M VALUE :=
  rb_newobj (mkRObject k ∅ (T_DATA mark free p)).

(** [Data_Get_Struct(self, type, var)]: the data pointer of a [T_DATA]. *)
Definition Data_Get_Struct (self : VALUE) : M ptr :=
  lift_option (λ s, match objspace s !! self with
                    | Some (mkRObject _ _ (T_DATA _ _ p)) => Some p
                    | _ => None
                    end).

(** [rb_iv_get(obj, name)]: [Qnil] when the variable is not set. *)
Definition rb_iv_get (obj : VALUE) (name : string) : M VALUE :=
  lift_option (λ s, match objspace s !! obj with
                    | Some o => Some (default Qnil (ivars o !! name))
                    | None => None
                    end).

(** [rb_iv_set(obj, name, val)]. *)
Definition rb_iv_set (obj : VALUE) (name : string) (val : VALUE) : M unit :=
  λ s, match objspace s !! obj with
       | Some o =>
           Ok tt (with_objspace
                    <[obj := mkRObject (klass o) (<[name := val]> (ivars o)) (body o)]> s)
       | None => Fault
       end.

(** [rb_ary_push(ary, item)]. *)
Definition rb_ary_push (ary : VALUE) (item : VALUE) : M unit :=
  λ s, match objspace s !! ary with
       | Some (mkRObject k iv (T_ARRAY elts)) =>
           Ok tt (with_objspace
                    <[ary := mkRObject k iv (T_ARRAY (elts ++ [item]))]> s)
       | _ => Fault
       end.

(** Modelled from the spec: the macro [NOKOGIRI_STR_NEW2] is declared in a
    header that is not among the sources.  The accessors return the text of
    a field, so the macro makes a new Ruby string holding a copy of the C
    string at [str].  The class of the string is outside the model. *)
Definition NOKOGIRI_STR_NEW2 (str : ptr) : M VALUE :=
  λ s, match native s !! str with
       | Some (CStr txt) => rb_newobj (mkRObject Qnil ∅ (T_STRING txt)) s
       | _ => Fault
       end.

(** Modelled from the spec: the macro [NOKOGIRI_NAMESPACE_EH] is declared in
    a header that is not among the sources.  A node is identifiable as a
    namespace node when its [type] tag is [XML_NAMESPACE_DECL]. *)
Definition NOKOGIRI_NAMESPACE_EH (p : ptr) : M bool :=
  do t <- node_type p;
  ret (t =? XML_NAMESPACE_DECL).

(** Modelled from the spec: the macros [DOC_RUBY_OBJECT_TEST] and
    [DOC_RUBY_OBJECT] are declared in a header that is not among the
    sources.  A document has a live host wrapper when its [_private] slot
    holds a tuple, and the wrapper is the tuple's [doc] member. *)
Definition DOC_RUBY_OBJECT_TEST (doc : ptr) : M bool :=
  do p <- doc_get xmlDoc._private doc;
  ret (negb (p =? NULL)).

Definition DOC_RUBY_OBJECT (doc : ptr) : M VALUE :=
  do p <- doc_get xmlDoc._private doc;
  lift_option (λ s, match native s !! p with
                    | Some (CTuple t) => Some (nokogiriTuple.doc t)
                    | _ => None
                    end).

(** [assert(e)]: nothing when the file is compiled with [NDEBUG]. *)
Definition assert (ndebug : bool) (e : M bool) : M unit :=
  if ndebug then ret tt
  else do b <- e; if b then ret tt else (λ _, AssertFail).

(** ** The functions of xml_namespace.c *)

(** [NOKOGIRI_DEBUG_START] and [NOKOGIRI_DEBUG_END] expand to nothing
    outside debug builds. *)
Definition dealloc_namespace (ns : ptr) : M unit :=
  do h <- ns_get xmlNs.href ns;
  (if negb (h =? NULL) then xmlFree h else ret tt) ;;
  do p <- ns_get xmlNs.prefix ns;
  (if negb (p =? NULL) then xmlFree p else ret tt) ;;
  xmlFree ns.

Definition prefix (self : VALUE) : M VALUE :=
  do ns <- Data_Get_Struct self;
  do p <- ns_get xmlNs.prefix ns;
  if p =? NULL then ret Qnil
  else NOKOGIRI_STR_NEW2 p.

Definition href (self : VALUE) : M VALUE :=
  do ns <- Data_Get_Struct self;
  do h <- ns_get xmlNs.href ns;
  if h =? NULL then ret Qnil
  else NOKOGIRI_STR_NEW2 h.

Definition part_of_an_xpath_node_set_eh (node : ptr) : M bool :=
  do nx <- ns_get xmlNs.next node;
  if nx =? NULL then ret false
  else do e <- NOKOGIRI_NAMESPACE_EH nx; ret (negb e).

Definition Nokogiri_wrap_xml_namespace (ndebug : bool) (doc node : ptr)
  : M VALUE :=
  assert ndebug
    (do t <- doc_get xmlDoc.type doc;
     ret ((t =? XML_DOCUMENT_NODE) || (t =? XML_HTML_DOCUMENT_NODE))) ;;
  do priv <- ns_get xmlNs._private node;
  if negb (priv =? NULL) then ret priv
  else
    do t <- doc_get xmlDoc.type doc;
    do doc <- (if t =? XML_DOCUMENT_FRAG_NODE
               then doc_get xmlDoc.doc doc else ret doc);
    do has_object <- DOC_RUBY_OBJECT_TEST doc;
    do ns <-
      (if has_object then
         do document <- DOC_RUBY_OBJECT doc;
         do in_set <- part_of_an_xpath_node_set_eh node;
         do ns <-
           (if in_set then
              do k <- (λ s, Ok (cNokogiriXmlNamespace s) s);
              Data_Wrap_Struct k None (Some fn_dealloc_namespace) node
            else
              do k <- (λ s, Ok (cNokogiriXmlNamespace s) s);
              do ns <- Data_Wrap_Struct k None None node;
              do node_cache <- rb_iv_get document "@node_cache";
              rb_ary_push node_cache ns ;;
              ret ns);
         rb_iv_set ns "@document" document ;;
         ret ns
       else
         do k <- (λ s, Ok (cNokogiriXmlNamespace s) s);
         Data_Wrap_Struct k None None node);
    ns_set__private node ns ;;
    ret ns.

(** ** A concrete scene *)

(** The records of the scene's namespace nodes: the two declarations of the
    tree, the default namespace [urn:a] and [b] for [urn:b]; a copy of the
    second made for a node set, whose [next] is an element; a declaration
    without href. *)
Definition ns_default : xmlNs.t :=
  xmlNs.mk 210 XML_NAMESPACE_DECL 201 NULL NULL 100.
Definition ns_b : xmlNs.t :=
  xmlNs.mk NULL XML_NAMESPACE_DECL 211 212 NULL 100.
Definition ns_copy : xmlNs.t :=
  xmlNs.mk 400 XML_NAMESPACE_DECL 301 302 NULL NULL.
Definition ns_bare : xmlNs.t :=
  xmlNs.mk NULL XML_NAMESPACE_DECL NULL NULL NULL 100.

(** The records of the scene's documents: one with a Ruby object, one
    without, and one tagged as a fragment whose [doc] is the first. *)
Definition doc_wrapped : xmlDoc.t := xmlDoc.mk 110 XML_DOCUMENT_NODE 100.
Definition doc_bare : xmlDoc.t := xmlDoc.mk NULL XML_DOCUMENT_NODE 500.
Definition doc_fragment : xmlDoc.t := xmlDoc.mk NULL XML_DOCUMENT_FRAG_NODE 100.

(** The document at 100 has its tuple at 110 and its Ruby object at 16,
    whose [@node_cache] is the empty array at 24; the element at 400 has
    tag [XML_ELEMENT_NODE]; 32 is the class [Nokogiri::XML::Namespace]. *)
Definition scene : state :=
  mkState
    (list_to_map
       [ (100, CDoc doc_wrapped);
         (110, CTuple (nokogiriTuple.mk 16));
         (200, CNs ns_default);
         (201, CStr "urn:a");
         (210, CNs ns_b);
         (211, CStr "urn:b");
         (212, CStr "b");
         (300, CNs ns_copy);
         (301, CStr "urn:b");
         (302, CStr "b");
         (400, CNode 1);
         (500, CDoc doc_bare);
         (600, CDoc doc_fragment);
         (700, CNs ns_bare) ])
    (list_to_map
       [ (16, mkRObject 8016 {[ "@node_cache" := 24 ]} (T_DATA None None 100));
         (24, mkRObject 8024 ∅ (T_ARRAY []));
         (32, mkRObject 8032 ∅ T_OBJECT) ])
    []
    32.

(** ** Vocabulary of the statements *)

(** The document handle passes the assertion of [Nokogiri_wrap_xml_namespace]:
    it is an [xmlDoc] of one of the two document kinds. *)
Definition document_kind_eh (s : state) (doc : ptr) : bool :=
  match native s !! doc with
  | Some (CDoc d) =>
      (xmlDoc.type d =? XML_DOCUMENT_NODE)
      || (xmlDoc.type d =? XML_HTML_DOCUMENT_NODE)
  | _ => false
  end.

(** Wrapping the same node once per handle of [docs], in order. *)
Fixpoint wrap_each (ndebug : bool) (docs : list ptr) (node : ptr)
  : M (list VALUE) :=
  match docs with
  | [] => ret []
  | doc :: docs' =>
      do v <- Nokogiri_wrap_xml_namespace ndebug doc node;
      do vs <- wrap_each ndebug docs' node;
      ret (v :: vs)
  end.

(** [self] is a [T_DATA] object whose data pointer is [node]. *)
Definition wraps (s : state) (self : VALUE) (node : ptr) : bool :=
  match objspace s !! self with
  | Some (mkRObject _ _ (T_DATA _ _ p)) => bool_decide (p = node)
  | _ => false
  end.

(** The text of the Ruby string [v], if [v] is one. *)
Definition rb_string (s : state) (v : VALUE) : option string :=
  match objspace s !! v with
  | Some (mkRObject _ _ (T_STRING txt)) => Some txt
  | _ => None
  end.

(** The state after the allocation of a Ruby string holding [txt]. *)
Definition with_new_string (txt : string) (s : state) : state :=
  with_objspace
    <[rb_newobj_addr (objspace s) := mkRObject Qnil ∅ (T_STRING txt)]> s.

(** The blocks [dealloc_namespace] hands to [xmlFree], in call order. *)
Definition released (ns : ptr) (n : xmlNs.t) : list ptr :=
  (if xmlNs.href n =? NULL then [] else [xmlNs.href n])
  ++ (if xmlNs.prefix n =? NULL then [] else [xmlNs.prefix n])
  ++ [ns].

Definition live (s : state) (p : ptr) : bool :=
  bool_decide (is_Some (native s !! p)).


(** The destructor stored in the wrapper [w]. *)
Definition dfree_of (s : state) (w : VALUE) : option (option cfunc) :=
  match objspace s !! w with
  | Some (mkRObject _ _ (T_DATA _ free _)) => Some free
  | _ => None
  end.

(** The instance variable [name] of the object [v], if it is set. *)
Definition ivar_of (s : state) (v : VALUE) (name : string) : option VALUE :=
  objspace s !! v ≫= λ o, ivars o !! name.

(** The elements of the array [a]. *)
Definition ary_of (s : state) (a : VALUE) : option (list VALUE) :=
  match objspace s !! a with
  | Some (mkRObject _ _ (T_ARRAY elts)) => Some elts
  | _ => None
  end.

(** The wrapper [Data_Wrap_Struct] builds for [node], once
    [rb_iv_set] has run on it when [document] is given. *)
Definition wrapper_object (s : state) (free : option cfunc)
    (document : option VALUE) (node : ptr) : RObject :=
  mkRObject (cNokogiriXmlNamespace s)
            (match document with
             | Some d => <["@document" := d]> ∅
             | None => ∅
             end)
            (T_DATA None free node).

(** The native heap once [node->_private] holds [w]. *)
Definition native_wrapped (s : state) (node : ptr) (n : xmlNs.t) (w : VALUE)
  : gmap Z cell :=
  <[node := CNs (xmlNs.set__private w n)]> (native s).

(** A computation that only reads. *)
Definition read_only {A} (m : M A) : Prop :=
  ∀ s a s', m s = Ok a s' → s' = s.

(** The Ruby object of a document that has one. *)
Definition host_object (s : state) (doc : ptr) : option VALUE :=
  match native s !! doc with
  | Some (CDoc d) =>
      if xmlDoc._private d =? NULL then None
      else match native s !! xmlDoc._private d with
           | Some (CTuple t) => Some (nokogiriTuple.doc t)
           | _ => None
           end
  | _ => None
  end.

(** The [@node_cache] array of a document object, and its elements. *)
Definition node_cache (s : state) (document : VALUE)
  : option (VALUE * list VALUE) :=
  match objspace s !! document with
  | Some o =>
      match ivars o !! "@node_cache" with
      | Some cache =>
          match ary_of s cache with
          | Some elts => Some (cache, elts)
          | None => None
          end
      | None => None
      end
  | None => None
  end.

(** The [type] tag found at [p]. *)
Definition type_at (s : state) (p : ptr) : option Z :=
  native s !! p ≫= cell_type.

(** The [next] link can be followed: it is null or points to a node. *)
Definition next_readable (s : state) (n : xmlNs.t) : bool :=
  (xmlNs.next n =? NULL) || bool_decide (is_Some (type_at s (xmlNs.next n))).

(** The classification in the words of the specification: the next-sibling
    link is non-null and the next sibling is not itself a namespace node. *)
Definition transient_copy_spec (s : state) (n : xmlNs.t) : bool :=
  negb (xmlNs.next n =? NULL)
  && negb (bool_decide (type_at s (xmlNs.next n) = Some XML_NAMESPACE_DECL)).

(** The state of a successful call, for use on concrete scenes. *)
Definition state_after {A} (m : M A) (s : state) : state :=
  match m s with
  | Ok _ s' => s'
  | _ => s
  end.

(** The C string at [p]. *)
Definition text_at (s : state) (p : ptr) : option string :=
  match native s !! p with
  | Some (CStr txt) => Some txt
  | _ => None
  end.

(** What a text field holds: [Some None] for a null pointer, [Some (Some
    txt)] for a pointer to the text [txt], [None] for any other pointer. *)
Definition field_text (s : state) (p : ptr) : option (option string) :=
  if p =? NULL then Some None else Some <$> text_at s p.

(** What an accessor returned: [Some None] for [Qnil], [Some (Some txt)]
    for a Ruby string holding [txt]. *)
Definition rb_text (s : state) (v : VALUE) : option (option string) :=
  if v =? Qnil then Some None else Some <$> rb_string s v.

(** [s'] differs from [s] by new objects at most. *)
Definition unchanged (s s' : state) : Prop :=
  native s' = native s
  ∧ freed s' = freed s
  ∧ ∀ a o, objspace s !! a = Some o → objspace s' !! a = Some o.

(** ** Later events in the life of a wrapper *)

(** [node->next = p]: the tree library relinking a sibling chain. *)
Definition ns_set_next (node p : ptr) : M unit :=
  λ s, match native s !! node with
       | Some (CNs n) =>
           Ok tt (with_native <[node := CNs (xmlNs.set_next p n)]> s)
       | _ => Fault
       end.

Inductive event :=
  | Wrap (ndebug : bool) (doc node : ptr)
  | Prefix (self : VALUE)
  | Href (self : VALUE)
  | Relink (node p : ptr).

Definition run_event (e : event) : M unit :=
  match e with
  | Wrap ndebug doc node => Nokogiri_wrap_xml_namespace ndebug doc node ;; ret tt
  | Prefix self => prefix self ;; ret tt
  | Href self => href self ;; ret tt
  | Relink node p => ns_set_next node p
  end.

Fixpoint run (es : list event) : M unit :=
  match es with
  | [] => ret tt
  | e :: es' => run_event e ;; run es'
  end.

(** The variant of a wrapper: its free function and its document link. *)
Definition variant_of (s : state) (w : VALUE)
  : option (option cfunc * option VALUE) :=
  match objspace s !! w with
  | Some (mkRObject _ iv (T_DATA _ free _)) => Some (free, iv !! "@document")
  | _ => None
  end.

(** The object at [w] is [obj], and the slot of [node] holds [w]. *)
Definition wrapped_as (w : VALUE) (obj : RObject) (node : ptr) (s : state)
  : Prop :=
  objspace s !! w = Some obj
  ∧ ∃ n, native s !! node = Some (CNs n) ∧ xmlNs._private n = w.


(** ** The rest of a wrapper's life *)

(** The document a call settles on after line 94: the record's [doc] for a
    record tagged as a fragment, the handle itself otherwise. *)
Definition owning_document (s : state) (doc : ptr) : option ptr :=
  match native s !! doc with
  | Some (CDoc d) =>
      Some (if xmlDoc.type d =? XML_DOCUMENT_FRAG_NODE
            then xmlDoc.doc d else doc)
  | _ => None
  end.

(** The three object spaces a first wrap of [node] can leave, [w] being the
    new wrapper and [doc'] the document the call settled on: lines 114-116,
    lines 99-106 with 113, and lines 107-110 with 113. *)
Inductive first_wrap_objspace (s : state) (doc' node : ptr) (w : VALUE)
  : gmap Z RObject → Prop :=
  | first_wrap_objspace_bare :
      DOC_RUBY_OBJECT_TEST doc' s = Ok false s →
      first_wrap_objspace s doc' node w
        (<[w := wrapper_object s None None node]> (objspace s))
  | first_wrap_objspace_copy document :
      DOC_RUBY_OBJECT_TEST doc' s = Ok true s →
      DOC_RUBY_OBJECT doc' s = Ok document s →
      part_of_an_xpath_node_set_eh node s = Ok true s →
      first_wrap_objspace s doc' node w
        (<[w := wrapper_object s (Some fn_dealloc_namespace) (Some document)
                 node]> (objspace s))
  | first_wrap_objspace_tree document cache ck civ elts :
      DOC_RUBY_OBJECT_TEST doc' s = Ok true s →
      DOC_RUBY_OBJECT doc' s = Ok document s →
      part_of_an_xpath_node_set_eh node s = Ok false s →
      cache ≠ w →
      objspace s !! cache = Some (mkRObject ck civ (T_ARRAY elts)) →
      first_wrap_objspace s doc' node w
        (<[w := wrapper_object s None (Some document) node]>
           (<[cache := mkRObject ck civ (T_ARRAY (elts ++ [w]))]>
              (objspace s))).

(** The C function behind a stored address. *)
Definition call_cfunc (f : cfunc) (p : ptr) : M unit :=
  match f with
  | fn_dealloc_namespace => dealloc_namespace p
  end.

(** What the collector does with a [T_DATA] object it reclaims: when the
    data pointer and the free function are both non-null, call the function
    on the pointer; then the object is gone. *)
Definition obj_free (v : VALUE) : M unit :=
  λ s, match objspace s !! v with
       | Some (mkRObject _ _ (T_DATA _ free p)) =>
           ((if p =? NULL then ret tt
             else match free with
                  | Some f => call_cfunc f p
                  | None => ret tt
                  end) ;;
            (λ s1, Ok tt (with_objspace (delete v) s1))) s
       | _ => Fault
       end.

(** Wrapping each node of [nodes] under [doc], in order. *)
Fixpoint wrap_nodes (ndebug : bool) (doc : ptr) (nodes : list ptr)
  : M (list VALUE) :=
  match nodes with
  | [] => ret []
  | node :: nodes' =>
      do v <- Nokogiri_wrap_xml_namespace ndebug doc node;
      do vs <- wrap_nodes ndebug doc nodes';
      ret (v :: vs)
  end.

(** [node] is a node without wrapper that the classifier takes for a node
    of the tree. *)
Definition unwrapped_tree_node (s : state) (node : ptr) : bool :=
  match native s !! node, part_of_an_xpath_node_set_eh node s with
  | Some (CNs n), Ok false _ => xmlNs._private n =? NULL
  | _, _ => false
  end.

(** The scene with a document object that has no [@node_cache]. *)
Definition scene_without_node_cache : state :=
  with_objspace <[16 := mkRObject 8016 ∅ (T_DATA None None 100)]> scene.
(** ** Allocation is fresh *)

Lemma rb_newobj_addr_above (objs : gmap Z RObject) a :
  is_Some (objs !! a) → a < rb_newobj_addr objs.
Proof.
  unfold rb_newobj_addr.
  apply (map_fold_weak_ind
           (λ r (m : gmap Z RObject), is_Some (m !! a) → a < r + 8)).
  - rewrite lookup_empty. by intros [? ?].
  - intros i x m r _ IH. rewrite lookup_insert.
    case_decide; [subst; lia|]. intros Hm. apply IH in Hm. lia.
Qed.

Lemma rb_newobj_addr_fresh (objs : gmap Z RObject) :
  objs !! rb_newobj_addr objs = None.
Proof.
  destruct (objs !! rb_newobj_addr objs) eqn:E; [|done].
  pose proof (rb_newobj_addr_above objs (rb_newobj_addr objs)) as H.
  rewrite E in H. specialize (H (mk_is_Some _ _ eq_refl)). lia.
Qed.

Lemma rb_newobj_addr_gt (objs : gmap Z RObject) : Qnil < rb_newobj_addr objs.
Proof.
  unfold rb_newobj_addr.
  apply (map_fold_weak_ind (λ r (m : gmap Z RObject), Qnil < r + 8)).
  - unfold Qnil. lia.
  - intros. lia.
Qed.

Lemma rb_newobj_addr_not_NULL (objs : gmap Z RObject) :
  rb_newobj_addr objs ≠ NULL.
Proof. pose proof (rb_newobj_addr_gt objs). unfold Qnil, NULL in *. lia. Qed.

Lemma rb_newobj_addr_not_Qnil (objs : gmap Z RObject) :
  rb_newobj_addr objs ≠ Qnil.
Proof. pose proof (rb_newobj_addr_gt objs). lia. Qed.

Lemma rb_newobj_addr_ne (objs : gmap Z RObject) a o :
  objs !! a = Some o → rb_newobj_addr objs ≠ a.
Proof. intros H E. subst. by rewrite rb_newobj_addr_fresh in H. Qed.

(** ** Equations of the monad and of the primitives *)

Lemma bind_Ok {A B} (m : M A) (k : A → M B) s a s' :
  m s = Ok a s' → bind m k s = k a s'.
Proof. unfold bind. by intros ->. Qed.

Lemma bind_AssertFail {A B} (m : M A) (k : A → M B) s :
  m s = AssertFail → bind m k s = AssertFail.
Proof. unfold bind. by intros ->. Qed.

Lemma bind_Ok_inv {A B} (m : M A) (k : A → M B) s b s2 :
  bind m k s = Ok b s2 → ∃ a s1, m s = Ok a s1 ∧ k a s1 = Ok b s2.
Proof. unfold bind. destruct (m s) as [a s1| |]; [eauto|done|done]. Qed.

Lemma ns_get_eq {A} (field : xmlNs.t → A) p n s :
  native s !! p = Some (CNs n) → ns_get field p s = Ok (field n) s.
Proof. unfold ns_get, lift_option. by intros ->. Qed.

Lemma doc_get_eq {A} (field : xmlDoc.t → A) p d s :
  native s !! p = Some (CDoc d) → doc_get field p s = Ok (field d) s.
Proof. unfold doc_get, lift_option. by intros ->. Qed.

Lemma Data_Get_Struct_eq self k iv mark free p s :
  objspace s !! self = Some (mkRObject k iv (T_DATA mark free p)) →
  Data_Get_Struct self s = Ok p s.
Proof. unfold Data_Get_Struct, lift_option. by intros ->. Qed.

Lemma xmlFree_eq p c s :
  native s !! p = Some c →
  xmlFree p s = Ok tt (mkState (delete p (native s)) (objspace s)
                               (freed s ++ [p]) (cNokogiriXmlNamespace s)).
Proof. unfold xmlFree. by intros ->. Qed.

Lemma NOKOGIRI_STR_NEW2_eq p txt s :
  native s !! p = Some (CStr txt) →
  NOKOGIRI_STR_NEW2 p s
  = Ok (rb_newobj_addr (objspace s))
       (with_objspace
          <[rb_newobj_addr (objspace s) := mkRObject Qnil ∅ (T_STRING txt)]> s).
Proof. unfold NOKOGIRI_STR_NEW2, rb_newobj. by intros ->. Qed.

Lemma assert_document_kind ndebug doc s :
  document_kind_eh s doc = true →
  assert ndebug
    (do t <- doc_get xmlDoc.type doc;
     ret ((t =? XML_DOCUMENT_NODE) || (t =? XML_HTML_DOCUMENT_NODE))) s
  = Ok tt s.
Proof.
  unfold document_kind_eh, assert. intros H. destruct ndebug; [done|].
  destruct (native s !! doc) as [[| d | | |]|] eqn:E; try discriminate.
  unfold bind. rewrite (doc_get_eq _ _ _ _ E). unfold ret. by rewrite H.
Qed.

Ltac mstep tac := erewrite bind_Ok; [| solve [tac] ].

(** ** The identity-cache hit *)

Lemma wrap_hit ndebug s doc node n :
  document_kind_eh s doc = true →
  native s !! node = Some (CNs n) →
  xmlNs._private n ≠ NULL →
  Nokogiri_wrap_xml_namespace ndebug doc node s = Ok (xmlNs._private n) s.
Proof.
  intros Hdoc Hnode Hpriv. unfold Nokogiri_wrap_xml_namespace.
  mstep ltac:(by apply assert_document_kind).
  mstep ltac:(by apply ns_get_eq).
  by destruct (Z.eqb_spec (xmlNs._private n) NULL).
Qed.

Lemma wrap_each_hit ndebug s docs node n :
  Forall (λ doc, document_kind_eh s doc = true) docs →
  native s !! node = Some (CNs n) →
  xmlNs._private n ≠ NULL →
  wrap_each ndebug docs node s
  = Ok (replicate (length docs) (xmlNs._private n)) s.
Proof.
  intros Hdocs Hnode Hpriv.
  induction Hdocs as [|doc docs Hdoc _ IH]; [done|].
  simpl. mstep ltac:(by apply (wrap_hit _ _ _ _ n)).
  by mstep ltac:(apply IH).
Qed.

(** C1.  When the node's [_private] slot already holds a wrapper, wrapping
    it under any valid document handle returns that wrapper and leaves the
    whole state as it was: both heaps (so the node, the node cache and the
    set of allocated objects) and the record of frees.  Hence any run of
    calls on the node, under whatever valid handles, returns that one
    wrapper every time. *)
Theorem wrap_returns_existing_wrapper ndebug s doc docs node n :
  document_kind_eh s doc = true →
  Forall (λ doc', document_kind_eh s doc' = true) docs →
  native s !! node = Some (CNs n) →
  xmlNs._private n ≠ NULL →
  Nokogiri_wrap_xml_namespace ndebug doc node s = Ok (xmlNs._private n) s
  ∧ wrap_each ndebug docs node s
    = Ok (replicate (length docs) (xmlNs._private n)) s.
Proof.
  intros Hdoc Hdocs Hnode Hpriv. split.
  - by apply wrap_hit.
  - by apply wrap_each_hit.
Qed.

(** ** The read accessors *)

Lemma wraps_Data_Get_Struct s self node :
  wraps s self node = true → Data_Get_Struct self s = Ok node s.
Proof.
  unfold wraps. intros H.
  destruct (objspace s !! self) as [[k iv [|mark free p| |]]|] eqn:E;
    try discriminate.
  apply bool_decide_eq_true in H as ->. by eapply Data_Get_Struct_eq.
Qed.

Lemma prefix_absent s self node n :
  wraps s self node = true →
  native s !! node = Some (CNs n) →
  xmlNs.prefix n = NULL →
  prefix self s = Ok Qnil s.
Proof.
  intros Hself Hnode Hnull. unfold prefix.
  mstep ltac:(by apply wraps_Data_Get_Struct).
  mstep ltac:(by apply ns_get_eq).
  by rewrite Hnull.
Qed.

Lemma prefix_present s self node n txt :
  wraps s self node = true →
  native s !! node = Some (CNs n) →
  xmlNs.prefix n ≠ NULL →
  native s !! xmlNs.prefix n = Some (CStr txt) →
  prefix self s = Ok (rb_newobj_addr (objspace s)) (with_new_string txt s).
Proof.
  intros Hself Hnode Hnn Htxt. unfold prefix.
  mstep ltac:(by apply wraps_Data_Get_Struct).
  mstep ltac:(by apply ns_get_eq).
  destruct (Z.eqb_spec (xmlNs.prefix n) NULL); [done|].
  by apply NOKOGIRI_STR_NEW2_eq.
Qed.

Lemma href_absent s self node n :
  wraps s self node = true →
  native s !! node = Some (CNs n) →
  xmlNs.href n = NULL →
  href self s = Ok Qnil s.
Proof.
  intros Hself Hnode Hnull. unfold href.
  mstep ltac:(by apply wraps_Data_Get_Struct).
  mstep ltac:(by apply ns_get_eq).
  by rewrite Hnull.
Qed.

Lemma href_present s self node n txt :
  wraps s self node = true →
  native s !! node = Some (CNs n) →
  xmlNs.href n ≠ NULL →
  native s !! xmlNs.href n = Some (CStr txt) →
  href self s = Ok (rb_newobj_addr (objspace s)) (with_new_string txt s).
Proof.
  intros Hself Hnode Hnn Htxt. unfold href.
  mstep ltac:(by apply wraps_Data_Get_Struct).
  mstep ltac:(by apply ns_get_eq).
  destruct (Z.eqb_spec (xmlNs.href n) NULL); [done|].
  by apply NOKOGIRI_STR_NEW2_eq.
Qed.

(** What the allocation of the result string leaves alone: native memory,
    the record of frees, and every object that was there before. *)
Lemma with_new_string_frame txt s :
  native (with_new_string txt s) = native s
  ∧ freed (with_new_string txt s) = freed s
  ∧ (∀ a o, objspace s !! a = Some o →
            objspace (with_new_string txt s) !! a = Some o)
  ∧ rb_string (with_new_string txt s) (rb_newobj_addr (objspace s)) = Some txt.
Proof.
  unfold with_new_string, with_objspace, rb_string. simpl.
  split_and!; try done.
  - intros a o Ha. rewrite lookup_insert_ne; [done|].
    by eapply rb_newobj_addr_ne.
  - by rewrite lookup_insert_eq.
Qed.

(** ** The destructor of detached wrappers *)

(** C4.  Run once on a live node whose non-null text buffers are live blocks
    distinct from each other and from the node, [dealloc_namespace] returns
    after calling [xmlFree] on the href buffer if it is non-null, then on
    the prefix buffer if it is non-null, then on the node: the record of
    frees grows by exactly these addresses in this order, none of them
    twice, exactly these blocks leave the native heap, and the object space
    is untouched. *)
Theorem dealloc_namespace_releases ns n s :
  native s !! ns = Some (CNs n) →
  forallb (live s) (released ns n) = true →
  NoDup (released ns n) →
  dealloc_namespace ns s
  = Ok tt (mkState (foldl (λ m p, delete p m) (native s) (released ns n))
                   (objspace s)
                   (freed s ++ released ns n)
                   (cNokogiriXmlNamespace s)).
Proof.
  intros Hns Hlive Hdup. unfold dealloc_namespace, released in *.
  mstep ltac:(by apply ns_get_eq).
  destruct (xmlNs.href n =? NULL) eqn:Hh;
    destruct (xmlNs.prefix n =? NULL) eqn:Hp;
    simpl in *; unfold live in *;
    repeat match goal with
      | H : _ && _ = true |- _ => apply andb_true_iff in H as [? ?]
      | H : bool_decide _ = true |- _ => apply bool_decide_eq_true in H as [? ?]
      | H : NoDup (_ :: _) |- _ => apply NoDup_cons in H as [? ?]
      | H : _ ∉ _ :: _ |- _ => apply not_elem_of_cons in H as [? ?]
      end.
  - mstep ltac:(reflexivity).
    mstep ltac:(by apply ns_get_eq).
    rewrite Hp. mstep ltac:(reflexivity).
    by erewrite xmlFree_eq by done.
  - mstep ltac:(reflexivity).
    mstep ltac:(by apply ns_get_eq).
    rewrite Hp. mstep ltac:(by eapply xmlFree_eq).
    erewrite xmlFree_eq by (simpl; rewrite lookup_delete_ne; done).
    simpl. by rewrite <-app_assoc.
  - mstep ltac:(by eapply xmlFree_eq).
    mstep ltac:(apply ns_get_eq; simpl; rewrite lookup_delete_ne; done).
    rewrite Hp. mstep ltac:(reflexivity).
    erewrite xmlFree_eq by (simpl; rewrite lookup_delete_ne; done).
    simpl. by rewrite <-app_assoc.
  - mstep ltac:(by eapply xmlFree_eq).
    mstep ltac:(apply ns_get_eq; simpl; rewrite lookup_delete_ne; done).
    rewrite Hp. mstep ltac:(eapply xmlFree_eq; simpl; rewrite lookup_delete_ne; done).
    erewrite xmlFree_eq by (simpl; rewrite !lookup_delete_ne; done).
    simpl. by rewrite <-!app_assoc.
Qed.

(** ** The first wrap of a node *)

Lemma bind_assoc {A B C} (m : M A) (k : A → M B) (k' : B → M C) s :
  bind (bind m k) k' s = bind m (λ a, bind (k a) k') s.
Proof. unfold bind. by destruct (m s). Qed.

Lemma bind_ret {A B} (a : A) (k : A → M B) s : bind (ret a) k s = k a s.
Proof. done. Qed.

Lemma node_type_eq p c t s :
  native s !! p = Some c → cell_type c = Some t → node_type p s = Ok t s.
Proof. unfold node_type, lift_option. intros -> H. simpl. by rewrite H. Qed.

Lemma Data_Wrap_Struct_eq k mark free p s :
  Data_Wrap_Struct k mark free p s
  = Ok (rb_newobj_addr (objspace s))
       (with_objspace
          <[rb_newobj_addr (objspace s) := mkRObject k ∅ (T_DATA mark free p)]> s).
Proof. done. Qed.

Lemma rb_iv_get_eq obj name o s :
  objspace s !! obj = Some o →
  rb_iv_get obj name s = Ok (default Qnil (ivars o !! name)) s.
Proof. unfold rb_iv_get, lift_option. by intros ->. Qed.

Lemma rb_iv_set_eq obj name val o s :
  objspace s !! obj = Some o →
  rb_iv_set obj name val s
  = Ok tt (with_objspace
             <[obj := mkRObject (klass o) (<[name := val]> (ivars o)) (body o)]> s).
Proof. unfold rb_iv_set. by intros ->. Qed.

Lemma rb_ary_push_eq ary item k iv elts s :
  objspace s !! ary = Some (mkRObject k iv (T_ARRAY elts)) →
  rb_ary_push ary item s
  = Ok tt (with_objspace
             <[ary := mkRObject k iv (T_ARRAY (elts ++ [item]))]> s).
Proof. unfold rb_ary_push. by intros ->. Qed.

Lemma ns_set__private_eq p v n s :
  native s !! p = Some (CNs n) →
  ns_set__private p v s
  = Ok tt (with_native <[p := CNs (xmlNs.set__private v n)]> s).
Proof. unfold ns_set__private. by intros ->. Qed.

Lemma DOC_RUBY_OBJECT_TEST_eq doc d s :
  native s !! doc = Some (CDoc d) →
  DOC_RUBY_OBJECT_TEST doc s = Ok (negb (xmlDoc._private d =? NULL)) s.
Proof.
  intros H. unfold DOC_RUBY_OBJECT_TEST.
  by rewrite (bind_Ok _ _ _ _ _ (doc_get_eq _ _ _ _ H)).
Qed.

Lemma DOC_RUBY_OBJECT_eq doc d t s :
  native s !! doc = Some (CDoc d) →
  native s !! xmlDoc._private d = Some (CTuple t) →
  DOC_RUBY_OBJECT doc s = Ok (nokogiriTuple.doc t) s.
Proof.
  intros H Ht. unfold DOC_RUBY_OBJECT.
  rewrite (bind_Ok _ _ _ _ _ (doc_get_eq _ _ _ _ H)).
  unfold lift_option. by rewrite Ht.
Qed.

Lemma part_of_an_xpath_node_set_eh_NULL node n s :
  native s !! node = Some (CNs n) →
  xmlNs.next n = NULL →
  part_of_an_xpath_node_set_eh node s = Ok false s.
Proof.
  intros H Hn. unfold part_of_an_xpath_node_set_eh.
  rewrite (bind_Ok _ _ _ _ _ (ns_get_eq _ _ _ _ H)). by rewrite Hn.
Qed.

Lemma part_of_an_xpath_node_set_eh_next node n c t s :
  native s !! node = Some (CNs n) →
  xmlNs.next n ≠ NULL →
  native s !! xmlNs.next n = Some c →
  cell_type c = Some t →
  part_of_an_xpath_node_set_eh node s
  = Ok (negb (t =? XML_NAMESPACE_DECL)) s.
Proof.
  intros H Hn Hc Ht. unfold part_of_an_xpath_node_set_eh.
  rewrite (bind_Ok _ _ _ _ _ (ns_get_eq _ _ _ _ H)).
  destruct (Z.eqb_spec (xmlNs.next n) NULL); [done|].
  unfold NOKOGIRI_NAMESPACE_EH. rewrite bind_assoc.
  by rewrite (bind_Ok _ _ _ _ _ (node_type_eq _ _ _ _ Hc Ht)).
Qed.

Lemma document_kind_not_fragment s doc d :
  document_kind_eh s doc = true →
  native s !! doc = Some (CDoc d) →
  (xmlDoc.type d =? XML_DOCUMENT_FRAG_NODE) = false.
Proof.
  unfold document_kind_eh. intros H E. rewrite E in H.
  unfold XML_DOCUMENT_NODE, XML_HTML_DOCUMENT_NODE, XML_DOCUMENT_FRAG_NODE in *.
  lia.
Qed.

Section first_wrap.

Variables (ndebug : bool) (s : state) (doc node : ptr).
Variables (d : xmlDoc.t) (n : xmlNs.t).
Hypothesis Hkind : document_kind_eh s doc = true.
Hypothesis Hdoc : native s !! doc = Some (CDoc d).
Hypothesis Hnode : native s !! node = Some (CNs n).
Hypothesis Hnew : xmlNs._private n = NULL.

Ltac wrap_prologue :=
  unfold Nokogiri_wrap_xml_namespace;
  mstep ltac:(by apply assert_document_kind);
  mstep ltac:(by apply ns_get_eq);
  rewrite Hnew; change (negb (NULL =? NULL)) with false; cbv iota;
  mstep ltac:(by apply doc_get_eq);
  rewrite (document_kind_not_fragment _ _ _ Hkind Hdoc);
  rewrite bind_ret;
  mstep ltac:(by apply DOC_RUBY_OBJECT_TEST_eq).

(** Lines 114-120: the document has no Ruby object. *)
Lemma first_wrap_bare :
  xmlDoc._private d = NULL →
  Nokogiri_wrap_xml_namespace ndebug doc node s
  = Ok (rb_newobj_addr (objspace s))
       (mkState
          (native_wrapped s node n (rb_newobj_addr (objspace s)))
          (<[rb_newobj_addr (objspace s) := wrapper_object s None None node]>
             (objspace s))
          (freed s) (cNokogiriXmlNamespace s)).
Proof.
  intros Hnone. wrap_prologue.
  rewrite Hnone. change (negb (NULL =? NULL)) with false. cbv iota.
  rewrite bind_assoc, bind_Ok with (a := cNokogiriXmlNamespace s) (s' := s)
    by done.
  mstep ltac:(apply Data_Wrap_Struct_eq).
  by mstep ltac:(by apply ns_set__private_eq).
Qed.

Section with_host.

Variable t : nokogiriTuple.t.
Hypothesis Hhost : xmlDoc._private d ≠ NULL.
Hypothesis Htuple : native s !! xmlDoc._private d = Some (CTuple t).

(** Lines 97-106, 113, 118-120: the node looks like a member of a node set. *)
Lemma first_wrap_copy :
  part_of_an_xpath_node_set_eh node s = Ok true s →
  Nokogiri_wrap_xml_namespace ndebug doc node s
  = Ok (rb_newobj_addr (objspace s))
       (mkState
          (native_wrapped s node n (rb_newobj_addr (objspace s)))
          (<[rb_newobj_addr (objspace s) :=
               wrapper_object s (Some fn_dealloc_namespace)
                 (Some (nokogiriTuple.doc t)) node]>
             (objspace s))
          (freed s) (cNokogiriXmlNamespace s)).
Proof.
  intros Hpart. wrap_prologue.
  destruct (Z.eqb_spec (xmlDoc._private d) NULL) as [|_]; [done|].
  cbn [negb]. cbv iota.
  rewrite bind_assoc. mstep ltac:(by eapply DOC_RUBY_OBJECT_eq).
  rewrite bind_assoc. mstep ltac:(exact Hpart). cbv iota.
  rewrite !bind_assoc, bind_Ok with (a := cNokogiriXmlNamespace s) (s' := s)
    by done.
  mstep ltac:(apply Data_Wrap_Struct_eq).
  rewrite bind_assoc.
  mstep ltac:(apply rb_iv_set_eq; simpl; apply lookup_insert_eq).
  rewrite bind_ret.
  mstep ltac:(by apply ns_set__private_eq).
  unfold ret, with_native, with_objspace, native_wrapped, wrapper_object.
  simpl. by rewrite insert_insert_eq.
Qed.

(** Lines 97-99, 107-113, 118-120: the node belongs to the tree. *)
Lemma first_wrap_tree o cache ck civ elts :
  part_of_an_xpath_node_set_eh node s = Ok false s →
  objspace s !! nokogiriTuple.doc t = Some o →
  ivars o !! "@node_cache" = Some cache →
  objspace s !! cache = Some (mkRObject ck civ (T_ARRAY elts)) →
  Nokogiri_wrap_xml_namespace ndebug doc node s
  = Ok (rb_newobj_addr (objspace s))
       (mkState
          (native_wrapped s node n (rb_newobj_addr (objspace s)))
          (<[rb_newobj_addr (objspace s) :=
               wrapper_object s None (Some (nokogiriTuple.doc t)) node]>
             (<[cache := mkRObject ck civ
                           (T_ARRAY (elts ++ [rb_newobj_addr (objspace s)]))]>
                (objspace s)))
          (freed s) (cNokogiriXmlNamespace s)).
Proof.
  intros Hpart Ho Hcache Hary. wrap_prologue.
  destruct (Z.eqb_spec (xmlDoc._private d) NULL) as [|_]; [done|].
  cbn [negb]. cbv iota.
  rewrite bind_assoc. mstep ltac:(by eapply DOC_RUBY_OBJECT_eq).
  rewrite bind_assoc.
  mstep ltac:(exact Hpart). cbv iota.
  rewrite !bind_assoc, bind_Ok with (a := cNokogiriXmlNamespace s) (s' := s)
    by done.
  rewrite bind_assoc. mstep ltac:(apply Data_Wrap_Struct_eq).
  pose proof (rb_newobj_addr_ne _ _ _ Ho) as Hwo.
  pose proof (rb_newobj_addr_ne _ _ _ Hary) as Hwc.
  rewrite bind_assoc.
  mstep ltac:(apply (rb_iv_get_eq _ _ o); cbn [with_objspace objspace];
              by rewrite lookup_insert_ne).
  rewrite Hcache. simpl default.
  rewrite bind_assoc.
  mstep ltac:(apply (rb_ary_push_eq _ _ ck civ elts); cbn [with_objspace objspace];
              by rewrite lookup_insert_ne).
  rewrite bind_ret.
  rewrite bind_assoc.
  mstep ltac:(apply rb_iv_set_eq; cbn [with_objspace objspace];
              rewrite lookup_insert_ne by done; apply lookup_insert_eq).
  rewrite bind_ret.
  mstep ltac:(by apply ns_set__private_eq).
  unfold ret, with_native, with_objspace, native_wrapped, wrapper_object.
  simpl. f_equal. f_equal.
  rewrite (insert_insert_ne _ cache) by done.
  by rewrite insert_insert_eq.
Qed.

End with_host.
End first_wrap.

(** ** What a successful call can have done *)

Lemma read_only_ret {A} (a : A) : read_only (ret a).
Proof. intros s b s' H. by inversion H. Qed.

Lemma read_only_bind {A B} (m : M A) (k : A → M B) :
  read_only m → (∀ a, read_only (k a)) → read_only (bind m k).
Proof.
  intros Hm Hk s b s' H.
  apply bind_Ok_inv in H as (a & s1 & H1 & H2).
  apply Hm in H1 as ->. by apply Hk in H2.
Qed.

Lemma read_only_lift_option {A} (f : state → option A) :
  read_only (lift_option f).
Proof.
  intros s a s'. unfold lift_option. destruct (f s); [|done].
  intros H. by inversion H.
Qed.

Lemma read_only_ns_get {A} (field : xmlNs.t → A) p : read_only (ns_get field p).
Proof. apply read_only_lift_option. Qed.

Lemma read_only_doc_get {A} (field : xmlDoc.t → A) p :
  read_only (doc_get field p).
Proof. apply read_only_lift_option. Qed.

Lemma read_only_Data_Get_Struct self : read_only (Data_Get_Struct self).
Proof. apply read_only_lift_option. Qed.

Lemma read_only_rb_iv_get obj name : read_only (rb_iv_get obj name).
Proof. apply read_only_lift_option. Qed.

Lemma read_only_DOC_RUBY_OBJECT_TEST doc : read_only (DOC_RUBY_OBJECT_TEST doc).
Proof.
  apply read_only_bind; [apply read_only_doc_get|].
  intros ?. apply read_only_ret.
Qed.

Lemma read_only_DOC_RUBY_OBJECT doc : read_only (DOC_RUBY_OBJECT doc).
Proof.
  apply read_only_bind; [apply read_only_doc_get|].
  intros ?. apply read_only_lift_option.
Qed.

Lemma read_only_assert ndebug (e : M bool) :
  read_only e → read_only (assert ndebug e).
Proof.
  intros He. unfold assert. destruct ndebug; [apply read_only_ret|].
  apply read_only_bind; [done|]. intros []; [apply read_only_ret|done].
Qed.

Lemma read_only_part_of_an_xpath_node_set_eh node :
  read_only (part_of_an_xpath_node_set_eh node).
Proof.
  unfold part_of_an_xpath_node_set_eh, NOKOGIRI_NAMESPACE_EH, node_type, ns_get.
  apply read_only_bind; [apply read_only_lift_option|].
  intros nx. destruct (nx =? NULL); [apply read_only_ret|].
  repeat (apply read_only_bind; [|intros ?]);
    auto using read_only_lift_option, read_only_ret.
Qed.

Lemma ns_get_inv {A} (field : xmlNs.t → A) p s a s' :
  ns_get field p s = Ok a s' →
  s' = s ∧ ∃ n, native s !! p = Some (CNs n) ∧ a = field n.
Proof.
  unfold ns_get, lift_option.
  destruct (native s !! p) as [[n| | | |]|]; try done.
  intros H. inversion H. eauto.
Qed.

Lemma rb_iv_set_inv obj name val s u s' :
  rb_iv_set obj name val s = Ok u s' →
  ∃ o, objspace s !! obj = Some o
       ∧ s' = with_objspace
                <[obj := mkRObject (klass o) (<[name := val]> (ivars o))
                                   (body o)]> s.
Proof.
  unfold rb_iv_set. destruct (objspace s !! obj) as [o|]; [|done].
  intros H. inversion H. eauto.
Qed.

Lemma rb_ary_push_inv ary item s u s' :
  rb_ary_push ary item s = Ok u s' →
  ∃ k iv elts,
    objspace s !! ary = Some (mkRObject k iv (T_ARRAY elts))
    ∧ s' = with_objspace
             <[ary := mkRObject k iv (T_ARRAY (elts ++ [item]))]> s.
Proof.
  unfold rb_ary_push.
  destruct (objspace s !! ary) as [[k iv [| | elts |]]|]; try done.
  intros H. inversion H. eauto 10.
Qed.

Lemma ns_set__private_inv p v s u s' :
  ns_set__private p v s = Ok u s' →
  ∃ n, native s !! p = Some (CNs n)
       ∧ s' = with_native <[p := CNs (xmlNs.set__private v n)]> s.
Proof.
  unfold ns_set__private.
  destruct (native s !! p) as [[n| | | |]|]; try done.
  intros H. inversion H. eauto.
Qed.

(** A first wrap ends in one of three shapes of object space, all of which
    keep every object that is not an array. *)
Lemma wrap_Ok_inv ndebug doc node s v s' :
  Nokogiri_wrap_xml_namespace ndebug doc node s = Ok v s' →
  ∃ n, native s !! node = Some (CNs n)
    ∧ ((xmlNs._private n ≠ NULL ∧ v = xmlNs._private n ∧ s' = s)
       ∨ (xmlNs._private n = NULL
          ∧ v = rb_newobj_addr (objspace s)
          ∧ native s' = native_wrapped s node n v
          ∧ freed s' = freed s
          ∧ cNokogiriXmlNamespace s' = cNokogiriXmlNamespace s
          ∧ (∃ free document,
               objspace s' !! v = Some (wrapper_object s free document node))
          ∧ (∀ a o, objspace s !! a = Some o →
                    (∀ l, body o ≠ T_ARRAY l) →
                    objspace s' !! a = Some o))).
Proof.
  unfold Nokogiri_wrap_xml_namespace. intros H.
  apply bind_Ok_inv in H as (u & sa & Hassert & H).
  apply read_only_assert in Hassert as ->.
  2:{ apply read_only_bind; [apply read_only_doc_get|].
      intros ?. apply read_only_ret. }
  apply bind_Ok_inv in H as (priv & sb & Hpriv & H).
  apply ns_get_inv in Hpriv as (-> & n & Hnode & ->).
  exists n. split; [done|].
  destruct (Z.eqb_spec (xmlNs._private n) NULL) as [Hnull|Hnn]; simpl in H.
  2:{ left. injection H as <- <-. done. }
  right.
  apply bind_Ok_inv in H as (ty & sc & Hty & H).
  apply read_only_doc_get in Hty as ->.
  apply bind_Ok_inv in H as (doc' & sd & Hredirect & H).
  assert (sd = s) as ->.
  { destruct (ty =? XML_DOCUMENT_FRAG_NODE).
    - by apply read_only_doc_get in Hredirect.
    - by apply read_only_ret in Hredirect. }
  apply bind_Ok_inv in H as (has & se & Htest & H).
  apply read_only_DOC_RUBY_OBJECT_TEST in Htest as ->.
  apply bind_Ok_inv in H as (ns & s1 & Hbuild & H).
  apply bind_Ok_inv in H as ([] & s2 & Hset & H).
  injection H as <- <-.
  apply ns_set__private_inv in Hset as (n1 & Hnode1 & ->).
  assert (native s1 = native s
          ∧ freed s1 = freed s
          ∧ cNokogiriXmlNamespace s1 = cNokogiriXmlNamespace s
          ∧ ns = rb_newobj_addr (objspace s)
          ∧ (∃ free document,
               objspace s1 !! ns = Some (wrapper_object s free document node))
          ∧ (∀ a o, objspace s !! a = Some o →
                    (∀ l, body o ≠ T_ARRAY l) →
                    objspace s1 !! a = Some o))
    as (Hnat & Hfreed & Hk & -> & Hobj & Hkeep).
  { destruct has.
    - apply bind_Ok_inv in Hbuild as (document & sf & Hdocument & H).
      apply read_only_DOC_RUBY_OBJECT in Hdocument as ->.
      apply bind_Ok_inv in H as (in_set & sg & Hpart & H).
      apply read_only_part_of_an_xpath_node_set_eh in Hpart as ->.
      apply bind_Ok_inv in H as (w & sh & Hwrap & H).
      apply bind_Ok_inv in H as ([] & si & Hiv & H).
      injection H as -> ->.
      apply rb_iv_set_inv in Hiv as (o & Ho & ->).
      destruct in_set.
      + apply bind_Ok_inv in Hwrap as (k & sj & Hglobal & Hwrap).
        injection Hglobal as <- <-.
        rewrite Data_Wrap_Struct_eq in Hwrap.
        injection Hwrap as <- <-.
        cbn [with_objspace objspace] in Ho.
        rewrite lookup_insert_eq in Ho. injection Ho as <-.
        split_and!; try done.
        * exists (Some fn_dealloc_namespace), (Some document).
          cbn. by rewrite lookup_insert_eq.
        * intros a o Ha _. cbn.
          rewrite !lookup_insert_ne by (by eapply rb_newobj_addr_ne). done.
      + apply bind_Ok_inv in Hwrap as (k & sj & Hglobal & Hwrap).
        injection Hglobal as <- <-.
        apply bind_Ok_inv in Hwrap as (w' & sk & Hwrap & H).
        rewrite Data_Wrap_Struct_eq in Hwrap.
        injection Hwrap as <- <-.
        apply bind_Ok_inv in H as (cache & sl & Hcache & H).
        apply read_only_rb_iv_get in Hcache as ->.
        apply bind_Ok_inv in H as ([] & sm & Hpush & H).
        injection H as <- <-.
        apply rb_ary_push_inv in Hpush as (ck & civ & elts & Hary & ->).
        cbn [with_objspace objspace] in Hary, Ho.
        destruct (decide (cache = rb_newobj_addr (objspace s))) as [->|Hne].
        { by rewrite lookup_insert_eq in Hary. }
        rewrite lookup_insert_ne in Hary by done.
        rewrite lookup_insert_ne, lookup_insert_eq in Ho by done.
        injection Ho as <-.
        split_and!; try done.
        * exists None, (Some document). cbn. by rewrite lookup_insert_eq.
        * intros a o Ha Hnot. cbn.
          rewrite lookup_insert_ne by (by eapply rb_newobj_addr_ne).
          destruct (decide (a = cache)) as [->|Hac].
          { rewrite Hary in Ha. injection Ha as <-. by destruct (Hnot elts). }
          rewrite lookup_insert_ne by done.
          rewrite lookup_insert_ne by (by eapply rb_newobj_addr_ne). done.
    - apply bind_Ok_inv in Hbuild as (k & sj & Hglobal & Hwrap).
      injection Hglobal as <- <-.
      rewrite Data_Wrap_Struct_eq in Hwrap.
      injection Hwrap as <- <-.
      split_and!; try done.
      + exists None, None. cbn. by rewrite lookup_insert_eq.
      + intros a o Ha _. cbn.
        rewrite lookup_insert_ne by (by eapply rb_newobj_addr_ne). done. }
  rewrite Hnat in Hnode1. rewrite Hnode in Hnode1.
  injection Hnode1 as <-.
  cbn [with_native native objspace freed cNokogiriXmlNamespace].
  unfold native_wrapped. rewrite Hnat. done.
Qed.

(** ** Reading the hypotheses of the statements *)

Lemma host_object_inv s doc document :
  host_object s doc = Some document →
  ∃ d t, native s !! doc = Some (CDoc d)
         ∧ xmlDoc._private d ≠ NULL
         ∧ native s !! xmlDoc._private d = Some (CTuple t)
         ∧ nokogiriTuple.doc t = document.
Proof.
  unfold host_object.
  destruct (native s !! doc) as [[| d | | |]|] eqn:Hd; try done.
  destruct (Z.eqb_spec (xmlDoc._private d) NULL); [done|].
  destruct (native s !! xmlDoc._private d) as [[| | | t |]|] eqn:Ht; try done.
  intros [= <-]. exists d, t. by rewrite ?Ht.
Qed.

Lemma node_cache_inv s document cache elts :
  node_cache s document = Some (cache, elts) →
  ∃ o ck civ, objspace s !! document = Some o
              ∧ ivars o !! "@node_cache" = Some cache
              ∧ objspace s !! cache = Some (mkRObject ck civ (T_ARRAY elts)).
Proof.
  unfold node_cache, ary_of.
  destruct (objspace s !! document) as [o|] eqn:Ho; [|done].
  destruct (ivars o !! "@node_cache") as [c|] eqn:Hc; [|done].
  destruct (objspace s !! c) as [[ck civ [| | l |]]|] eqn:E; try done.
  intros [= <- <-]. exists o, ck, civ. by rewrite ?E.
Qed.

(** The classifier computes what the specification words. *)
Lemma part_of_an_xpath_node_set_eh_spec s node n :
  native s !! node = Some (CNs n) →
  next_readable s n = true →
  part_of_an_xpath_node_set_eh node s = Ok (transient_copy_spec s n) s.
Proof.
  unfold next_readable, transient_copy_spec, type_at. intros Hnode Hnext.
  destruct (Z.eqb_spec (xmlNs.next n) NULL) as [Hnull|Hnn].
  - by apply (part_of_an_xpath_node_set_eh_NULL _ n).
  - simpl in Hnext. apply bool_decide_eq_true in Hnext as [ty Hty].
    destruct (native s !! xmlNs.next n) as [c|] eqn:Hc; [|done].
    simpl in Hty.
    rewrite (part_of_an_xpath_node_set_eh_next _ _ _ _ _ Hnode Hnn Hc Hty).
    simpl. rewrite Hty. do 2 f_equal.
    destruct (Z.eqb_spec ty XML_NAMESPACE_DECL) as [->|Hne].
    + by rewrite bool_decide_eq_true_2.
    + rewrite bool_decide_eq_false_2; [done|]. by intros [= ?].
Qed.

Lemma dfree_of_insert s s' w free document node :
  objspace s' !! w = Some (wrapper_object s free document node) →
  dfree_of s' w = Some free.
Proof. unfold dfree_of, wrapper_object. by intros ->. Qed.

Lemma ivar_of_insert s s' w free document node :
  objspace s' !! w = Some (wrapper_object s free document node) →
  ivar_of s' w "@document" = document.
Proof.
  unfold ivar_of, wrapper_object. intros ->. simpl.
  destruct document; [apply lookup_insert_eq|apply lookup_empty].
Qed.

(** ** The three ways a node is wrapped for the first time *)

(** C7.  When the document has no Ruby object, the first wrap of a node
    returns a new [T_DATA] object of the class in [cNokogiriXmlNamespace]
    that wraps the node, with null mark and free functions, whatever the
    node's sibling chain looks like; no instance variable is set on it, and
    every object that existed before, arrays included, is as it was.  The
    node's [_private] then holds the new object, nothing else of native
    memory changes, and nothing is freed. *)
Theorem wrap_without_host_wrapper ndebug s doc d node n :
  document_kind_eh s doc = true →
  native s !! doc = Some (CDoc d) →
  xmlDoc._private d = NULL →
  native s !! node = Some (CNs n) →
  xmlNs._private n = NULL →
  ∃ w s',
    Nokogiri_wrap_xml_namespace ndebug doc node s = Ok w s'
    ∧ objspace s !! w = None
    ∧ dfree_of s' w = Some None
    ∧ ivar_of s' w "@document" = None
    ∧ (∀ a, a ≠ w → objspace s' !! a = objspace s !! a)
    ∧ w ≠ NULL
    ∧ wraps s' w node = true
    ∧ objspace s' !! w
      = Some (mkRObject (cNokogiriXmlNamespace s) ∅ (T_DATA None None node))
    ∧ native s' = <[node := CNs (xmlNs.set__private w n)]> (native s)
    ∧ freed s' = freed s.
Proof.
  intros Hkind Hdoc Hnone Hnode Hnew.
  eexists _, _. split; [by eapply first_wrap_bare|].
  cbn [objspace native freed]. split_and!.
  - apply rb_newobj_addr_fresh.
  - eapply dfree_of_insert. cbn [objspace]. apply lookup_insert_eq.
  - eapply (ivar_of_insert _ _ _ _ None). cbn [objspace]. apply lookup_insert_eq.
  - intros a Ha. by rewrite lookup_insert_ne.
  - apply rb_newobj_addr_not_NULL.
  - unfold wraps. cbn [objspace]. rewrite lookup_insert_eq. simpl.
    by apply bool_decide_eq_true.
  - apply lookup_insert_eq.
  - done.
  - done.
Qed.

(** C5.  When the document has a Ruby object with its node cache and the
    classifier answers no, the first wrap of a node returns a new [T_DATA]
    object for the node whose free function is null, the node cache is the
    old one with that object appended, and the object's [@document] is the
    document object. *)
Theorem wrap_document_scoped_registers ndebug s doc node n document cache elts :
  document_kind_eh s doc = true →
  native s !! node = Some (CNs n) →
  xmlNs._private n = NULL →
  host_object s doc = Some document →
  node_cache s document = Some (cache, elts) →
  part_of_an_xpath_node_set_eh node s = Ok false s →
  ∃ w s',
    Nokogiri_wrap_xml_namespace ndebug doc node s = Ok w s'
    ∧ objspace s !! w = None
    ∧ wraps s' w node = true
    ∧ dfree_of s' w = Some None
    ∧ ary_of s' cache = Some (elts ++ [w])
    ∧ ivar_of s' w "@document" = Some document.
Proof.
  intros Hkind Hnode Hnew Hhost Hcache Hpart.
  apply host_object_inv in Hhost as (d & t & Hdoc & Hpriv & Htuple & <-).
  apply node_cache_inv in Hcache as (o & ck & civ & Ho & Hiv & Hary).
  eexists _, _. split; [by eapply first_wrap_tree|].
  pose proof (rb_newobj_addr_ne _ _ _ Hary) as Hne.
  cbn [objspace]. split_and!.
  - apply rb_newobj_addr_fresh.
  - unfold wraps. cbn [objspace]. rewrite lookup_insert_eq. simpl.
    by apply bool_decide_eq_true.
  - eapply dfree_of_insert. cbn [objspace]. apply lookup_insert_eq.
  - unfold ary_of. cbn [objspace].
    by rewrite lookup_insert_ne, lookup_insert_eq.
  - eapply (ivar_of_insert _ _ _ _ (Some _)). cbn [objspace].
    apply lookup_insert_eq.
Qed.

(** C3, as the code has it.  When the document has a Ruby object and the
    classifier answers yes, the first wrap of a node returns a new [T_DATA]
    object whose free function is [dealloc_namespace]; every object that
    existed before is as it was, so no array, the node cache among them,
    gains the wrapper; but the wrapper's [@document] is set to the document
    object, as on the other branch. *)
Theorem wrap_detached_skips_cache_sets_document ndebug s doc node n document :
  document_kind_eh s doc = true →
  native s !! node = Some (CNs n) →
  xmlNs._private n = NULL →
  host_object s doc = Some document →
  part_of_an_xpath_node_set_eh node s = Ok true s →
  ∃ w s',
    Nokogiri_wrap_xml_namespace ndebug doc node s = Ok w s'
    ∧ objspace s !! w = None
    ∧ dfree_of s' w = Some (Some fn_dealloc_namespace)
    ∧ (∀ a, a ≠ w → objspace s' !! a = objspace s !! a)
    ∧ (∀ a, ary_of s' a = ary_of s a)
    ∧ ivar_of s' w "@document" = Some document.
Proof.
  intros Hkind Hnode Hnew Hhost Hpart.
  apply host_object_inv in Hhost as (d & t & Hdoc & Hpriv & Htuple & <-).
  eexists _, _. split; [by eapply first_wrap_copy|].
  cbn [objspace]. split_and!.
  - apply rb_newobj_addr_fresh.
  - eapply dfree_of_insert. cbn [objspace]. apply lookup_insert_eq.
  - intros a Ha. by rewrite lookup_insert_ne.
  - intros a. unfold ary_of. cbn [objspace].
    destruct (decide (a = rb_newobj_addr (objspace s))) as [->|Ha].
    + by rewrite lookup_insert_eq, rb_newobj_addr_fresh.
    + by rewrite lookup_insert_ne.
  - eapply (ivar_of_insert _ _ _ _ (Some _)). cbn [objspace].
    apply lookup_insert_eq.
Qed.

(** C2, as the code has it.  For a node wrapped for the first time under a
    document that has a Ruby object with its node cache, the classifier
    answers yes exactly when the next-sibling link is non-null and the next
    sibling is not a namespace node, and the wrapper's free function is
    [dealloc_namespace] in exactly that case and null otherwise. *)
Theorem wrap_classifies_by_next_sibling ndebug s doc node n document cache elts :
  document_kind_eh s doc = true →
  native s !! node = Some (CNs n) →
  xmlNs._private n = NULL →
  next_readable s n = true →
  host_object s doc = Some document →
  node_cache s document = Some (cache, elts) →
  part_of_an_xpath_node_set_eh node s = Ok (transient_copy_spec s n) s
  ∧ ∃ w s',
      Nokogiri_wrap_xml_namespace ndebug doc node s = Ok w s'
      ∧ dfree_of s' w
        = Some (if transient_copy_spec s n
                then Some fn_dealloc_namespace else None)
      ∧ (dfree_of s' w = Some (Some fn_dealloc_namespace)
         ↔ transient_copy_spec s n = true).
Proof.
  intros Hkind Hnode Hnew Hnext Hhost Hcache.
  pose proof (part_of_an_xpath_node_set_eh_spec _ _ _ Hnode Hnext) as Hpart.
  split; [done|].
  apply host_object_inv in Hhost as (d & t & Hdoc & Hpriv & Htuple & <-).
  apply node_cache_inv in Hcache as (o & ck & civ & Ho & Hiv & Hary).
  destruct (transient_copy_spec s n).
  - eexists _, _. split; [by eapply first_wrap_copy|].
    erewrite dfree_of_insert by (cbn [objspace]; apply lookup_insert_eq).
    done.
  - eexists _, _. split; [by eapply first_wrap_tree|].
    erewrite dfree_of_insert by (cbn [objspace]; apply lookup_insert_eq).
    split; [done|]. split; [by intros [=]|done].
Qed.

(** ** The read accessors, through their results *)

Lemma unchanged_refl s : unchanged s s.
Proof. by repeat split. Qed.

Lemma unchanged_with_new_string txt s :
  unchanged s (with_new_string txt s).
Proof.
  destruct (with_new_string_frame txt s) as (? & ? & ? & _).
  by repeat split.
Qed.

Lemma rb_text_Qnil s : rb_text s Qnil = Some None.
Proof. done. Qed.

Lemma rb_text_new_string txt s :
  rb_text (with_new_string txt s) (rb_newobj_addr (objspace s))
  = Some (Some txt).
Proof.
  unfold rb_text.
  destruct (Z.eqb_spec (rb_newobj_addr (objspace s)) Qnil) as [E|_].
  - by apply rb_newobj_addr_not_Qnil in E.
  - destruct (with_new_string_frame txt s) as (_ & _ & _ & ->). done.
Qed.

Lemma field_text_inv s p t :
  field_text s p = Some t →
  (p = NULL ∧ t = None)
  ∨ (p ≠ NULL ∧ ∃ txt, native s !! p = Some (CStr txt) ∧ t = Some txt).
Proof.
  unfold field_text, text_at.
  destruct (Z.eqb_spec p NULL) as [->|Hp].
  - intros [= <-]. by left.
  - destruct (native s !! p) as [[| | | | txt]|]; try done.
    intros [= <-]. right. eauto.
Qed.

Lemma prefix_projects s self node n tp :
  wraps s self node = true →
  native s !! node = Some (CNs n) →
  field_text s (xmlNs.prefix n) = Some tp →
  ∃ v s', prefix self s = Ok v s'
          ∧ rb_text s' v = Some tp
          ∧ (v = Qnil ↔ xmlNs.prefix n = NULL)
          ∧ unchanged s s'.
Proof.
  intros Hself Hnode [[Hnull ->]|[Hnn (txt & Htxt & ->)]]%field_text_inv.
  - exists Qnil, s. split; [by eapply prefix_absent|].
    split; [apply rb_text_Qnil|]. split; [done|apply unchanged_refl].
  - eexists _, _. split; [by eapply prefix_present|]. split_and!.
    + apply rb_text_new_string.
    + split; [|done]. intros E. by apply rb_newobj_addr_not_Qnil in E.
    + apply unchanged_with_new_string.
Qed.

Lemma href_projects s self node n th :
  wraps s self node = true →
  native s !! node = Some (CNs n) →
  field_text s (xmlNs.href n) = Some th →
  ∃ v s', href self s = Ok v s'
          ∧ rb_text s' v = Some th
          ∧ (v = Qnil ↔ xmlNs.href n = NULL)
          ∧ unchanged s s'.
Proof.
  intros Hself Hnode [[Hnull ->]|[Hnn (txt & Htxt & ->)]]%field_text_inv.
  - exists Qnil, s. split; [by eapply href_absent|].
    split; [apply rb_text_Qnil|]. split; [done|apply unchanged_refl].
  - eexists _, _. split; [by eapply href_present|]. split_and!.
    + apply rb_text_new_string.
    + split; [|done]. intros E. by apply rb_newobj_addr_not_Qnil in E.
    + apply unchanged_with_new_string.
Qed.

(** A successful wrap of a node whose slot was empty, or held a wrapper of
    the node, returns a wrapper of the node and keeps the node's text. *)
Lemma wrap_wraps ndebug doc node s n w s' :
  native s !! node = Some (CNs n) →
  xmlNs._private n = NULL ∨ wraps s (xmlNs._private n) node = true →
  Nokogiri_wrap_xml_namespace ndebug doc node s = Ok w s' →
  wraps s' w node = true
  ∧ ∃ n', native s' !! node = Some (CNs n')
          ∧ xmlNs._private n' = w
          ∧ xmlNs.prefix n' = xmlNs.prefix n
          ∧ xmlNs.href n' = xmlNs.href n
          ∧ ∀ p, p ≠ node → native s' !! p = native s !! p.
Proof.
  intros Hnode Hslot Hwrap.
  apply wrap_Ok_inv in Hwrap as (n0 & Hnode0 & Hcases).
  rewrite Hnode in Hnode0. injection Hnode0 as <-.
  destruct Hcases as [(Hnn & -> & ->)|(Hnull & -> & Hnat & _ & _ & Hobj & _)].
  - destruct Hslot as [?|Hslot]; [done|]. split; [done|].
    exists n. by split_and!.
  - destruct Hobj as (free & document & Hobj). split.
    + unfold wraps. rewrite Hobj. simpl. by apply bool_decide_eq_true.
    + exists (xmlNs.set__private (rb_newobj_addr (objspace s)) n).
      rewrite Hnat. unfold native_wrapped. split_and!; try done.
      * apply lookup_insert_eq.
      * intros p Hp. by rewrite lookup_insert_ne.
Qed.

Lemma field_text_frame s s' node n p t :
  native s !! node = Some (CNs n) →
  (∀ q, q ≠ node → native s' !! q = native s !! q) →
  field_text s p = Some t →
  field_text s' p = Some t.
Proof.
  intros Hnode Hframe Ht. unfold field_text, text_at in *.
  destruct (p =? NULL); [done|].
  destruct (decide (p = node)) as [->|Hne].
  - by rewrite Hnode in Ht.
  - by rewrite Hframe.
Qed.

(** C8.  Let [wrap] return [w] for a node whose slot was empty or held a
    wrapper of the node, and let the node's prefix and href fields be null
    or point to text.  Then [w] wraps the node; [prefix w] returns [Qnil]
    exactly when the prefix field is null and otherwise a string with the
    prefix text; [href w] returns a string with the href text (and [Qnil]
    for a null field); and after either call native memory, the record of
    frees and every object that existed, the wrapper included, are as they
    were. *)
Theorem accessors_project_node_fields ndebug doc node s0 n w s tp th :
  native s0 !! node = Some (CNs n) →
  xmlNs._private n = NULL ∨ wraps s0 (xmlNs._private n) node = true →
  Nokogiri_wrap_xml_namespace ndebug doc node s0 = Ok w s →
  field_text s0 (xmlNs.prefix n) = Some tp →
  field_text s0 (xmlNs.href n) = Some th →
  wraps s w node = true
  ∧ (∃ vp sp, prefix w s = Ok vp sp
              ∧ rb_text sp vp = Some tp
              ∧ (vp = Qnil ↔ xmlNs.prefix n = NULL)
              ∧ unchanged s sp)
  ∧ (∃ vh sh, href w s = Ok vh sh
              ∧ rb_text sh vh = Some th
              ∧ (vh = Qnil ↔ xmlNs.href n = NULL)
              ∧ unchanged s sh).
Proof.
  intros Hnode Hslot Hwrap Hp Hh.
  destruct (wrap_wraps _ _ _ _ _ _ _ Hnode Hslot Hwrap)
    as (Hw & n' & Hnode' & _ & Hpe & Hhe & Hframe).
  split; [done|]. split.
  - rewrite <-Hpe. apply (prefix_projects _ _ node n'); [done..|].
    rewrite Hpe. by apply (field_text_frame s0 _ node n).
  - rewrite <-Hhe. apply (href_projects _ _ node n'); [done..|].
    rewrite Hhe. by apply (field_text_frame s0 _ node n).
Qed.

(** C10.  For a wrapper whose node has a null href field, [href] returns
    [Qnil] and leaves the state as it was. *)
Theorem href_of_null_field_is_nil s self node n :
  wraps s self node = true →
  native s !! node = Some (CNs n) →
  xmlNs.href n = NULL →
  href self s = Ok Qnil s.
Proof. intros Hself Hnode Hnull. by eapply href_absent. Qed.

(** ** A handle tagged as a fragment *)

Lemma bind_ext {A B} (m : M A) (k k' : A → M B) s :
  (∀ a s1, m s = Ok a s1 → k a s1 = k' a s1) → bind m k s = bind m k' s.
Proof. unfold bind. intros H. destruct (m s); auto. Qed.

(** C6, as the code has it.  For a handle whose record is tagged as a
    fragment, the call stops at the assertion when assertions are compiled
    in.  When they are compiled out, the call does what a call under the
    record's [doc] does, provided that one is not tagged as a fragment
    too. *)
Theorem wrap_fragment_handle s doc d node owner :
  native s !! doc = Some (CDoc d) →
  xmlDoc.type d = XML_DOCUMENT_FRAG_NODE →
  native s !! xmlDoc.doc d = Some (CDoc owner) →
  xmlDoc.type owner ≠ XML_DOCUMENT_FRAG_NODE →
  Nokogiri_wrap_xml_namespace false doc node s = AssertFail
  ∧ Nokogiri_wrap_xml_namespace true doc node s
    = Nokogiri_wrap_xml_namespace true (xmlDoc.doc d) node s.
Proof.
  intros Hdoc Hfrag Howner Hnf. unfold Nokogiri_wrap_xml_namespace. split.
  - apply bind_AssertFail. unfold assert.
    rewrite bind_assoc. mstep ltac:(by apply doc_get_eq).
    rewrite bind_ret, Hfrag. done.
  - unfold assert. rewrite !bind_ret. apply bind_ext. intros priv s1 Hpriv.
    apply read_only_ns_get in Hpriv as ->.
    destruct (negb (priv =? NULL)); [done|].
    mstep ltac:(by apply doc_get_eq). rewrite Hfrag.
    change (XML_DOCUMENT_FRAG_NODE =? XML_DOCUMENT_FRAG_NODE) with true.
    cbv iota. mstep ltac:(by apply doc_get_eq).
    symmetry. mstep ltac:(by apply doc_get_eq).
    destruct (Z.eqb_spec (xmlDoc.type owner) XML_DOCUMENT_FRAG_NODE); [done|].
    by rewrite bind_ret.
Qed.

(** ** The variant of a wrapper over time *)

Lemma NOKOGIRI_STR_NEW2_inv p s v s' :
  NOKOGIRI_STR_NEW2 p s = Ok v s' → ∃ txt, s' = with_new_string txt s.
Proof.
  unfold NOKOGIRI_STR_NEW2, rb_newobj.
  destruct (native s !! p) as [[| | | | txt]|]; try done.
  intros [= _ <-]. by exists txt.
Qed.

Lemma prefix_unchanged self s v s' :
  prefix self s = Ok v s' → unchanged s s'.
Proof.
  unfold prefix. intros H.
  apply bind_Ok_inv in H as (ns & sa & Hget & H).
  apply read_only_Data_Get_Struct in Hget as ->.
  apply bind_Ok_inv in H as (p & sb & Hp & H).
  apply read_only_ns_get in Hp as ->.
  destruct (p =? NULL).
  - apply read_only_ret in H as ->. apply unchanged_refl.
  - apply NOKOGIRI_STR_NEW2_inv in H as (txt & ->).
    apply unchanged_with_new_string.
Qed.

Lemma href_unchanged self s v s' :
  href self s = Ok v s' → unchanged s s'.
Proof.
  unfold href. intros H.
  apply bind_Ok_inv in H as (ns & sa & Hget & H).
  apply read_only_Data_Get_Struct in Hget as ->.
  apply bind_Ok_inv in H as (p & sb & Hp & H).
  apply read_only_ns_get in Hp as ->.
  destruct (p =? NULL).
  - apply read_only_ret in H as ->. apply unchanged_refl.
  - apply NOKOGIRI_STR_NEW2_inv in H as (txt & ->).
    apply unchanged_with_new_string.
Qed.

Lemma wrapped_as_unchanged w obj node s s' :
  unchanged s s' → wrapped_as w obj node s → wrapped_as w obj node s'.
Proof.
  intros (Hnat & _ & Hobj) (Hw & n & Hnode & Hpriv). split; [by apply Hobj|].
  exists n. by rewrite Hnat.
Qed.

Lemma run_event_wrapped_as e w obj node s s' :
  w ≠ NULL →
  (∀ l, body obj ≠ T_ARRAY l) →
  wrapped_as w obj node s →
  run_event e s = Ok tt s' →
  wrapped_as w obj node s'.
Proof.
  intros Hw Hobj Hinv Hrun. destruct e as [nd doc' node'|self|self|node' p];
    simpl in Hrun.
  - apply bind_Ok_inv in Hrun as (v & s1 & Hwrap & Hret).
    apply read_only_ret in Hret as ->.
    apply wrap_Ok_inv in Hwrap as (n' & Hnode' & Hcases).
    destruct Hcases as [(_ & _ & ->)|(Hnull & _ & Hnat & _ & _ & _ & Hkeep)];
      [done|].
    destruct Hinv as (Hobjw & n & Hnode & Hpriv). split; [by apply Hkeep|].
    exists n. split; [|done]. rewrite Hnat. unfold native_wrapped.
    rewrite lookup_insert_ne; [done|]. intros <-.
    rewrite Hnode in Hnode'. injection Hnode' as <-. congruence.
  - apply bind_Ok_inv in Hrun as (v & s1 & Hacc & Hret).
    apply read_only_ret in Hret as ->.
    eapply wrapped_as_unchanged; [|done]. by eapply prefix_unchanged.
  - apply bind_Ok_inv in Hrun as (v & s1 & Hacc & Hret).
    apply read_only_ret in Hret as ->.
    eapply wrapped_as_unchanged; [|done]. by eapply href_unchanged.
  - unfold ns_set_next in Hrun.
    destruct (native s !! node') as [[n'| | | |]|] eqn:Hnode'; try done.
    injection Hrun as <-. destruct Hinv as (Hobjw & n & Hnode & Hpriv).
    split; [done|]. cbn [with_native native].
    destruct (decide (node' = node)) as [->|Hne].
    + rewrite Hnode in Hnode'. injection Hnode' as <-.
      exists (xmlNs.set_next p n). by rewrite lookup_insert_eq.
    + exists n. by rewrite lookup_insert_ne.
Qed.

Lemma run_wrapped_as es w obj node s s' :
  w ≠ NULL →
  (∀ l, body obj ≠ T_ARRAY l) →
  wrapped_as w obj node s →
  run es s = Ok tt s' →
  wrapped_as w obj node s'.
Proof.
  intros Hw Hobj. revert s. induction es as [|e es IH]; intros s Hinv Hrun.
  - apply read_only_ret in Hrun as ->. done.
  - simpl in Hrun. apply bind_Ok_inv in Hrun as ([] & s1 & He & Hrun).
    eapply IH; [|done]. by eapply run_event_wrapped_as.
Qed.

(** C9.  Let the first wrap of a node return [w], and let any sequence of
    later events follow: wraps of this or other nodes under any handles,
    accessor calls, relinking of the [next] field of this or other nodes.
    Then the wrapper's free function and document link are what the first
    wrap made them, and a wrap of the node returns [w] again and changes
    nothing, so the choice is not made a second time. *)
Theorem variant_is_decided_once ndebug doc node s0 n w s1 es s2 ndebug' doc' :
  native s0 !! node = Some (CNs n) →
  xmlNs._private n = NULL →
  Nokogiri_wrap_xml_namespace ndebug doc node s0 = Ok w s1 →
  run es s1 = Ok tt s2 →
  document_kind_eh s2 doc' = true →
  is_Some (variant_of s1 w)
  ∧ variant_of s2 w = variant_of s1 w
  ∧ Nokogiri_wrap_xml_namespace ndebug' doc' node s2 = Ok w s2.
Proof.
  intros Hnode Hnew Hwrap Hrun Hkind.
  apply wrap_Ok_inv in Hwrap as (n0 & Hnode0 & Hcases).
  rewrite Hnode in Hnode0. injection Hnode0 as <-.
  destruct Hcases as [(? & _)|(_ & -> & Hnat & _ & _ & Hobj & _)]; [done|].
  destruct Hobj as (free & document & Hobj).
  set (w := rb_newobj_addr (objspace s0)) in *.
  assert (w ≠ NULL) as Hw by apply rb_newobj_addr_not_NULL.
  assert (wrapped_as w (wrapper_object s0 free document node) node s1) as Hinv.
  { split; [done|]. exists (xmlNs.set__private w n).
    rewrite Hnat. unfold native_wrapped. by rewrite lookup_insert_eq. }
  eapply run_wrapped_as in Hinv as (Hobj2 & n2 & Hnode2 & Hpriv2);
    [|done|done|done].
  unfold variant_of. rewrite Hobj, Hobj2. simpl. split_and!; [by eexists|done|].
  rewrite <-Hpriv2. apply wrap_hit; [done..|]. by rewrite Hpriv2.
Qed.

(** ** The statements on the scene *)

Lemma wrap_returns_existing_wrapper_scene :
  let s := state_after (Nokogiri_wrap_xml_namespace false 100 200) scene in
  Nokogiri_wrap_xml_namespace false 100 200 s = Ok 40 s
  ∧ wrap_each false [100; 500; 100] 200 s = Ok [40; 40; 40] s.
Proof.
  apply (wrap_returns_existing_wrapper false _ 100 [100; 500; 100] 200
           (xmlNs.set__private 40 ns_default)).
  - vm_compute. reflexivity.
  - repeat constructor; vm_compute; reflexivity.
  - vm_compute. reflexivity.
  - vm_compute. discriminate.
Defined.

Lemma dealloc_namespace_releases_scene :
  dealloc_namespace 300 scene
  = Ok tt (mkState (delete 300 (delete 302 (delete 301 (native scene))))
                   (objspace scene) [301; 302; 300] 32).
Proof.
  apply (dealloc_namespace_releases 300 ns_copy scene).
  - vm_compute. reflexivity.
  - vm_compute. reflexivity.
  - apply (bool_decide_unpack _). vm_compute. exact I.
Defined.

Lemma wrap_without_host_wrapper_scene :
  ∃ w s',
    Nokogiri_wrap_xml_namespace false 500 300 scene = Ok w s'
    ∧ objspace scene !! w = None
    ∧ dfree_of s' w = Some None
    ∧ ivar_of s' w "@document" = None
    ∧ (∀ a, a ≠ w → objspace s' !! a = objspace scene !! a)
    ∧ w ≠ NULL
    ∧ wraps s' w 300 = true
    ∧ objspace s' !! w = Some (mkRObject 32 ∅ (T_DATA None None 300))
    ∧ native s' = <[300 := CNs (xmlNs.set__private w ns_copy)]> (native scene)
    ∧ freed s' = freed scene.
Proof.
  apply (wrap_without_host_wrapper false scene 500 doc_bare 300 ns_copy);
    vm_compute; reflexivity.
Defined.

Lemma wrap_document_scoped_registers_scene :
  ∃ w s',
    Nokogiri_wrap_xml_namespace false 100 200 scene = Ok w s'
    ∧ objspace scene !! w = None
    ∧ wraps s' w 200 = true
    ∧ dfree_of s' w = Some None
    ∧ ary_of s' 24 = Some ([] ++ [w])
    ∧ ivar_of s' w "@document" = Some 16.
Proof.
  apply (wrap_document_scoped_registers false scene 100 200 ns_default 16 24 []);
    vm_compute; reflexivity.
Defined.

Lemma wrap_detached_skips_cache_sets_document_scene :
  ∃ w s',
    Nokogiri_wrap_xml_namespace false 100 300 scene = Ok w s'
    ∧ objspace scene !! w = None
    ∧ dfree_of s' w = Some (Some fn_dealloc_namespace)
    ∧ (∀ a, a ≠ w → objspace s' !! a = objspace scene !! a)
    ∧ (∀ a, ary_of s' a = ary_of scene a)
    ∧ ivar_of s' w "@document" = Some 16.
Proof.
  apply (wrap_detached_skips_cache_sets_document false scene 100 300 ns_copy 16);
    vm_compute; reflexivity.
Defined.

Lemma wrap_classifies_by_next_sibling_scene :
  part_of_an_xpath_node_set_eh 300 scene = Ok true scene
  ∧ ∃ w s',
      Nokogiri_wrap_xml_namespace false 100 300 scene = Ok w s'
      ∧ dfree_of s' w = Some (Some fn_dealloc_namespace)
      ∧ (dfree_of s' w = Some (Some fn_dealloc_namespace) ↔ true = true).
Proof.
  apply (wrap_classifies_by_next_sibling false scene 100 300 ns_copy 16 24 []);
    vm_compute; reflexivity.
Defined.

Lemma wrap_fragment_handle_scene :
  Nokogiri_wrap_xml_namespace false 600 200 scene = AssertFail
  ∧ Nokogiri_wrap_xml_namespace true 600 200 scene
    = Nokogiri_wrap_xml_namespace true 100 200 scene.
Proof.
  apply (wrap_fragment_handle scene 600 doc_fragment 200 doc_wrapped).
  - vm_compute. reflexivity.
  - vm_compute. reflexivity.
  - vm_compute. reflexivity.
  - vm_compute. discriminate.
Defined.

Lemma accessors_project_node_fields_scene :
  let s := state_after (Nokogiri_wrap_xml_namespace false 100 210) scene in
  wraps s 40 210 = true
  ∧ (∃ vp sp, prefix 40 s = Ok vp sp
              ∧ rb_text sp vp = Some (Some "b")
              ∧ (vp = Qnil ↔ xmlNs.prefix ns_b = NULL)
              ∧ unchanged s sp)
  ∧ (∃ vh sh, href 40 s = Ok vh sh
              ∧ rb_text sh vh = Some (Some "urn:b")
              ∧ (vh = Qnil ↔ xmlNs.href ns_b = NULL)
              ∧ unchanged s sh).
Proof.
  apply (accessors_project_node_fields false 100 210 scene ns_b 40 _
           (Some "b") (Some "urn:b")).
  - vm_compute. reflexivity.
  - left. vm_compute. reflexivity.
  - vm_compute. reflexivity.
  - vm_compute. reflexivity.
  - vm_compute. reflexivity.
Defined.

Lemma href_of_null_field_is_nil_scene :
  let s := state_after (Nokogiri_wrap_xml_namespace false 100 700) scene in
  href 40 s = Ok Qnil s.
Proof.
  apply (href_of_null_field_is_nil _ 40 700 (xmlNs.set__private 40 ns_bare));
    vm_compute; reflexivity.
Defined.

Lemma variant_is_decided_once_scene :
  let s1 := state_after (Nokogiri_wrap_xml_namespace false 100 300) scene in
  let es := [Relink 300 210; Wrap false 100 200; Prefix 40; Href 48;
             Wrap true 500 300] in
  let s2 := state_after (run es) s1 in
  is_Some (variant_of s1 40)
  ∧ variant_of s2 40 = variant_of s1 40
  ∧ Nokogiri_wrap_xml_namespace false 100 300 s2 = Ok 40 s2.
Proof.
  apply (variant_is_decided_once false 100 300 scene ns_copy 40 _
           [Relink 300 210; Wrap false 100 200; Prefix 40; Href 48;
            Wrap true 500 300] _ false 100);
    vm_compute; reflexivity.
Defined.

(** Once the copy at 300 is relinked to the declaration at 210 the
    classifier would answer no, where it answered yes at the first wrap; the
    wrapper keeps [dealloc_namespace]. *)
Example relinked_copy_keeps_variant :
  let s1 := state_after (Nokogiri_wrap_xml_namespace false 100 300) scene in
  let s2 := state_after (run [Relink 300 210]) s1 in
  part_of_an_xpath_node_set_eh 300 scene = Ok true scene
  ∧ part_of_an_xpath_node_set_eh 300 s2 = Ok false s2
  ∧ variant_of s2 40 = Some (Some fn_dealloc_namespace, Some 16).
Proof. vm_compute. done. Qed.

(** ** Where the code departs from the specification *)

(** C2 fails as stated: under the document at 500, which has no Ruby
    object, the copy at 300 has a non-null next sibling that is not a
    namespace node, and its wrapper gets a null free function. *)
Lemma copy_under_bare_document_not_detached :
  native scene !! 300 = Some (CNs ns_copy)
  ∧ xmlNs._private ns_copy = NULL
  ∧ document_kind_eh scene 500 = true
  ∧ transient_copy_spec scene ns_copy = true
  ∧ ∃ w s',
      Nokogiri_wrap_xml_namespace false 500 300 scene = Ok w s'
      ∧ dfree_of s' w = Some None
      ∧ ¬ (dfree_of s' w = Some (Some fn_dealloc_namespace)
           ↔ transient_copy_spec scene ns_copy = true).
Proof.
  split_and!; [vm_compute; reflexivity..|].
  eexists _, _. split; [vm_compute; reflexivity|].
  split; [vm_compute; reflexivity|].
  intros [_ H]. specialize (H eq_refl). vm_compute in H. discriminate.
Qed.

(** C3 fails as stated: the wrapper of the copy at 300, built with
    [dealloc_namespace] under the document at 100, has its [@document] set
    to the document object 16. *)
Lemma detached_wrapper_references_document :
  part_of_an_xpath_node_set_eh 300 scene = Ok true scene
  ∧ ∃ w s',
      Nokogiri_wrap_xml_namespace false 100 300 scene = Ok w s'
      ∧ dfree_of s' w = Some (Some fn_dealloc_namespace)
      ∧ ivar_of s' w "@document" = Some 16
      ∧ ivar_of s' w "@document" ≠ None.
Proof.
  split; [vm_compute; reflexivity|].
  eexists _, _. split; [vm_compute; reflexivity|].
  split_and!; [vm_compute; reflexivity..|].
  vm_compute. discriminate.
Qed.

(** C6 fails as stated: with assertions compiled in, the call under the
    record at 600, tagged as a fragment of the document at 100, stops at the
    assertion, where the call under 100 returns a wrapper. *)
Lemma fragment_handle_stops_at_assertion :
  native scene !! 600 = Some (CDoc doc_fragment)
  ∧ xmlDoc.type doc_fragment = XML_DOCUMENT_FRAG_NODE
  ∧ xmlDoc.doc doc_fragment = 100
  ∧ Nokogiri_wrap_xml_namespace false 600 200 scene = AssertFail
  ∧ (∃ w s', Nokogiri_wrap_xml_namespace false 100 200 scene = Ok w s')
  ∧ Nokogiri_wrap_xml_namespace false 600 200 scene
    ≠ Nokogiri_wrap_xml_namespace false 100 200 scene.
Proof.
  split_and!; [vm_compute; reflexivity..| |].
  - eexists _, _. vm_compute. reflexivity.
  - vm_compute. discriminate.
Qed.

(** ** Every first wrap is one of three *)

Lemma read_only_eq {A} (m : M A) s a s' :
  read_only m → m s = Ok a s' → s' = s ∧ m s = Ok a s.
Proof. intros Hm H. pose proof (Hm _ _ _ H) as ->. done. Qed.

Lemma first_wrap_Ok_inv ndebug doc node s n w s' :
  native s !! node = Some (CNs n) →
  xmlNs._private n = NULL →
  Nokogiri_wrap_xml_namespace ndebug doc node s = Ok w s' →
  w = rb_newobj_addr (objspace s)
  ∧ native s' = native_wrapped s node n w
  ∧ freed s' = freed s
  ∧ cNokogiriXmlNamespace s' = cNokogiriXmlNamespace s
  ∧ ∃ doc', owning_document s doc = Some doc'
            ∧ first_wrap_objspace s doc' node w (objspace s').
Proof.
  unfold Nokogiri_wrap_xml_namespace. intros Hnode Hnew H.
  apply bind_Ok_inv in H as (u & sa & Hassert & H).
  apply read_only_assert in Hassert as ->.
  2:{ apply read_only_bind; [apply read_only_doc_get|].
      intros ?. apply read_only_ret. }
  rewrite (bind_Ok _ _ _ _ _ (ns_get_eq _ _ _ _ Hnode)), Hnew in H.
  change (negb (NULL =? NULL)) with false in H. cbv iota in H.
  apply bind_Ok_inv in H as (ty & sc & Hty & H).
  unfold doc_get, lift_option in Hty.
  destruct (native s !! doc) as [[| d | | |]|] eqn:Hdoc; try done.
  injection Hty as <- <-.
  apply bind_Ok_inv in H as (doc' & sd & Hredirect & H).
  assert (sd = s ∧ owning_document s doc = Some doc') as [-> Hown].
  { unfold owning_document. rewrite Hdoc.
    destruct (xmlDoc.type d =? XML_DOCUMENT_FRAG_NODE).
    - rewrite (doc_get_eq _ _ _ _ Hdoc) in Hredirect.
      by injection Hredirect as <- <-.
    - by injection Hredirect as <- <-. }
  apply bind_Ok_inv in H as (has & se & Htest & H).
  apply read_only_eq in Htest as [-> Htest];
    [|apply read_only_DOC_RUBY_OBJECT_TEST].
  apply bind_Ok_inv in H as (ns & s1 & Hbuild & H).
  apply bind_Ok_inv in H as ([] & s2 & Hset & H).
  injection H as <- <-.
  apply ns_set__private_inv in Hset as (n1 & Hnode1 & ->).
  cbn [with_native native objspace freed cNokogiriXmlNamespace].
  assert (native s1 = native s
          ∧ freed s1 = freed s
          ∧ cNokogiriXmlNamespace s1 = cNokogiriXmlNamespace s
          ∧ ns = rb_newobj_addr (objspace s)
          ∧ first_wrap_objspace s doc' node ns (objspace s1))
    as (Hnat & Hfreed & Hk & -> & Hshape).
  { destruct has.
    - apply bind_Ok_inv in Hbuild as (document & sf & Hdocument & H).
      apply read_only_eq in Hdocument as [-> Hdocument];
        [|apply read_only_DOC_RUBY_OBJECT].
      apply bind_Ok_inv in H as (in_set & sg & Hpart & H).
      apply read_only_eq in Hpart as [-> Hpart];
        [|apply read_only_part_of_an_xpath_node_set_eh].
      apply bind_Ok_inv in H as (w0 & sh & Hwrap & H).
      apply bind_Ok_inv in H as ([] & si & Hiv & H).
      injection H as -> ->.
      apply rb_iv_set_inv in Hiv as (o & Ho & ->).
      destruct in_set.
      + apply bind_Ok_inv in Hwrap as (k & sj & Hglobal & Hwrap).
        injection Hglobal as <- <-.
        rewrite Data_Wrap_Struct_eq in Hwrap.
        injection Hwrap as <- <-.
        cbn [with_objspace objspace] in Ho.
        rewrite lookup_insert_eq in Ho. injection Ho as <-.
        split_and!; try done.
        cbn [with_objspace objspace klass ivars body].
        rewrite insert_insert_eq.
        by apply (first_wrap_objspace_copy _ _ _ _ document).
      + apply bind_Ok_inv in Hwrap as (k & sj & Hglobal & Hwrap).
        injection Hglobal as <- <-.
        apply bind_Ok_inv in Hwrap as (w' & sk & Hwrap & H).
        rewrite Data_Wrap_Struct_eq in Hwrap.
        injection Hwrap as <- <-.
        apply bind_Ok_inv in H as (cache & sl & Hcache & H).
        apply read_only_rb_iv_get in Hcache as ->.
        apply bind_Ok_inv in H as ([] & sm & Hpush & H).
        injection H as <- <-.
        apply rb_ary_push_inv in Hpush as (ck & civ & elts & Hary & ->).
        cbn [with_objspace objspace] in Hary, Ho.
        destruct (decide (cache = rb_newobj_addr (objspace s))) as [->|Hne].
        { by rewrite lookup_insert_eq in Hary. }
        rewrite lookup_insert_ne in Hary by done.
        rewrite lookup_insert_ne, lookup_insert_eq in Ho by done.
        injection Ho as <-.
        split_and!; try done.
        cbn [with_objspace objspace klass ivars body].
        rewrite (insert_insert_ne _ cache) by done.
        rewrite insert_insert_eq.
        by apply (first_wrap_objspace_tree _ _ _ _ document).
    - apply bind_Ok_inv in Hbuild as (k & sj & Hglobal & Hwrap).
      injection Hglobal as <- <-.
      rewrite Data_Wrap_Struct_eq in Hwrap.
      injection Hwrap as <- <-.
      split_and!; try done.
      by apply first_wrap_objspace_bare. }
  rewrite Hnat in Hnode1. rewrite Hnode in Hnode1. injection Hnode1 as <-.
  split_and!; try done.
  - unfold native_wrapped. by rewrite Hnat.
  - by exists doc'.
Qed.

Lemma set__private_same n : xmlNs.set__private (xmlNs._private n) n = n.
Proof. by destruct n. Qed.

Lemma first_wrap_objspace_new s doc' node w objs' :
  first_wrap_objspace s doc' node w objs' →
  ∃ free document, objs' !! w = Some (wrapper_object s free document node).
Proof.
  intros [Htest|document Htest Hdoc Hpart
          |document cache ck civ elts Htest Hdoc Hpart Hne Hary];
    eexists _, _; apply lookup_insert_eq.
Qed.

(** X1.  A successful call returns a non-null value, calls [xmlFree] on
    nothing, and leaves native memory as it was except that the node's
    [_private] holds the returned value. *)
Theorem wrap_writes_only_the_slot ndebug doc node s w s' :
  Nokogiri_wrap_xml_namespace ndebug doc node s = Ok w s' →
  w ≠ NULL
  ∧ freed s' = freed s
  ∧ cNokogiriXmlNamespace s' = cNokogiriXmlNamespace s
  ∧ ∃ n, native s !! node = Some (CNs n)
         ∧ native s' = <[node := CNs (xmlNs.set__private w n)]> (native s).
Proof.
  intros (n & Hnode & Hcases)%wrap_Ok_inv.
  destruct Hcases as [(Hnn & -> & ->)|(_ & -> & Hnat & Hfreed & Hk & _)].
  - split_and!; try done. exists n. split; [done|].
    by rewrite set__private_same, insert_id.
  - split_and!; try done; [apply rb_newobj_addr_not_NULL|]. by exists n.
Qed.

(** X2.  The wrapper a first wrap returns sits at an address that held no
    object and is not [Qnil]; it is a [T_DATA] of the class in
    [cNokogiriXmlNamespace], with a null mark function and the node as its
    data pointer. *)
Theorem first_wrap_returns_new_data_object ndebug doc node s n w s' :
  native s !! node = Some (CNs n) →
  xmlNs._private n = NULL →
  Nokogiri_wrap_xml_namespace ndebug doc node s = Ok w s' →
  objspace s !! w = None
  ∧ w ≠ Qnil
  ∧ ∃ iv free,
      objspace s' !! w
      = Some (mkRObject (cNokogiriXmlNamespace s) iv (T_DATA None free node)).
Proof.
  intros Hnode Hnew Hwrap.
  destruct (first_wrap_Ok_inv _ _ _ _ _ _ _ Hnode Hnew Hwrap)
    as (-> & _ & _ & _ & doc' & _ & Hshape).
  split; [apply rb_newobj_addr_fresh|].
  split; [apply rb_newobj_addr_not_Qnil|].
  apply first_wrap_objspace_new in Hshape as (free & document & ->).
  unfold wrapper_object. by eexists _, _.
Qed.

(** X3.  After a first wrap the wrapper's free function is
    [dealloc_namespace] exactly when the document the call settled on has a
    Ruby object and the classifier answered yes; this needs nothing of the
    heaps beyond the call having returned. *)
Theorem real_destructor_iff_host_and_copy ndebug doc node s n w s' :
  native s !! node = Some (CNs n) →
  xmlNs._private n = NULL →
  Nokogiri_wrap_xml_namespace ndebug doc node s = Ok w s' →
  dfree_of s' w = Some (Some fn_dealloc_namespace)
  ↔ ∃ doc', owning_document s doc = Some doc'
            ∧ DOC_RUBY_OBJECT_TEST doc' s = Ok true s
            ∧ part_of_an_xpath_node_set_eh node s = Ok true s.
Proof.
  intros Hnode Hnew Hwrap.
  destruct (first_wrap_Ok_inv _ _ _ _ _ _ _ Hnode Hnew Hwrap)
    as (-> & _ & _ & _ & doc' & Hown & Hshape).
  unfold dfree_of.
  destruct Hshape as [Htest|document Htest Hdoc Hpart
                     |document cache ck civ elts Htest Hdoc Hpart Hne Hary];
    rewrite lookup_insert_eq; simpl.
  - split; [done|]. intros (doc2 & Hown2 & Htest2 & _).
    rewrite Hown in Hown2. injection Hown2 as <-. congruence.
  - split; [|done]. intros _. by exists doc'.
  - split; [done|]. intros (doc2 & _ & _ & Hpart2). congruence.
Qed.

(** X4.  A node whose [next] is null, or points to a namespace node, never
    gets [dealloc_namespace]: whatever document it is first wrapped under,
    its wrapper's free function is null. *)
Theorem null_or_namespace_next_never_detached ndebug doc node s n w s' :
  native s !! node = Some (CNs n) →
  xmlNs._private n = NULL →
  xmlNs.next n = NULL ∨ type_at s (xmlNs.next n) = Some XML_NAMESPACE_DECL →
  Nokogiri_wrap_xml_namespace ndebug doc node s = Ok w s' →
  dfree_of s' w = Some None.
Proof.
  intros Hnode Hnew Hnext Hwrap.
  assert (part_of_an_xpath_node_set_eh node s = Ok false s) as Hno.
  { destruct (Z.eqb_spec (xmlNs.next n) NULL) as [Hnull|Hnn].
    - by apply (part_of_an_xpath_node_set_eh_NULL _ n).
    - destruct Hnext as [?|Hty]; [done|]. unfold type_at in Hty.
      destruct (native s !! xmlNs.next n) as [c|] eqn:Hc; [|done].
      by rewrite (part_of_an_xpath_node_set_eh_next _ _ _ _ _
                    Hnode Hnn Hc Hty). }
  destruct (first_wrap_Ok_inv _ _ _ _ _ _ _ Hnode Hnew Hwrap)
    as (-> & _ & _ & _ & doc' & Hown & Hshape).
  unfold dfree_of.
  destruct Hshape as [Htest|document Htest Hdoc Hpart
                     |document cache ck civ elts Htest Hdoc Hpart Hne Hary];
    rewrite lookup_insert_eq; simpl; congruence.
Qed.

(** X5.  A successful call never removes or reorders the elements of a
    Ruby array: either every array is as it was, or exactly one array has
    the returned wrapper appended at its end. *)
Theorem wrap_only_appends_to_one_array ndebug doc node s w s' :
  Nokogiri_wrap_xml_namespace ndebug doc node s = Ok w s' →
  (∀ a, ary_of s' a = ary_of s a)
  ∨ (∃ cache elts,
       ary_of s cache = Some elts
       ∧ ary_of s' cache = Some (elts ++ [w])
       ∧ ∀ a, a ≠ cache → ary_of s' a = ary_of s a).
Proof.
  intros Hwrap.
  destruct (wrap_Ok_inv _ _ _ _ _ _ Hwrap) as (n & Hnode & Hcases).
  destruct Hcases as [(_ & _ & ->)|(Hnew & _)]; [by left|].
  destruct (first_wrap_Ok_inv _ _ _ _ _ _ _ Hnode Hnew Hwrap)
    as (-> & _ & _ & _ & doc' & _ & Hshape).
  pose proof (rb_newobj_addr_fresh (objspace s)) as Hfresh.
  unfold ary_of.
  destruct Hshape as [Htest|document Htest Hdoc Hpart
                     |document cache ck civ elts Htest Hdoc Hpart Hne Hary].
  - left. intros a. destruct (decide (a = rb_newobj_addr (objspace s))) as [->|Ha].
    + by rewrite lookup_insert_eq, Hfresh.
    + by rewrite lookup_insert_ne.
  - left. intros a. destruct (decide (a = rb_newobj_addr (objspace s))) as [->|Ha].
    + by rewrite lookup_insert_eq, Hfresh.
    + by rewrite lookup_insert_ne.
  - right. exists cache, elts. rewrite Hary. split; [done|]. split.
    + by rewrite lookup_insert_ne, lookup_insert_eq.
    + intros a Hac.
      destruct (decide (a = rb_newobj_addr (objspace s))) as [->|Ha].
      * by rewrite lookup_insert_eq, Hfresh.
      * by rewrite !lookup_insert_ne.
Qed.

(** ** Collecting a wrapper *)

Lemma dealloc_namespace_run ns n s :
  native s !! ns = Some (CNs n) →
  forallb (live s) (released ns n) = true →
  NoDup (released ns n) →
  dealloc_namespace ns s
  = Ok tt (mkState (foldl (λ m p, delete p m) (native s) (released ns n))
                   (objspace s)
                   (freed s ++ released ns n)
                   (cNokogiriXmlNamespace s)).
Proof.
  intros Hns Hlive Hdup. unfold dealloc_namespace, released in *.
  mstep ltac:(by apply ns_get_eq).
  destruct (xmlNs.href n =? NULL) eqn:Hh;
    destruct (xmlNs.prefix n =? NULL) eqn:Hp;
    simpl in *; unfold live in *;
    repeat match goal with
      | H : _ && _ = true |- _ => apply andb_true_iff in H as [? ?]
      | H : bool_decide _ = true |- _ => apply bool_decide_eq_true in H as [? ?]
      | H : NoDup (_ :: _) |- _ => apply NoDup_cons in H as [? ?]
      | H : _ ∉ _ :: _ |- _ => apply not_elem_of_cons in H as [? ?]
      end.
  - mstep ltac:(reflexivity).
    mstep ltac:(by apply ns_get_eq).
    rewrite Hp. mstep ltac:(reflexivity).
    by erewrite xmlFree_eq by done.
  - mstep ltac:(reflexivity).
    mstep ltac:(by apply ns_get_eq).
    rewrite Hp. mstep ltac:(by eapply xmlFree_eq).
    erewrite xmlFree_eq by (simpl; rewrite lookup_delete_ne; done).
    simpl. by rewrite <-app_assoc.
  - mstep ltac:(by eapply xmlFree_eq).
    mstep ltac:(apply ns_get_eq; simpl; rewrite lookup_delete_ne; done).
    rewrite Hp. mstep ltac:(reflexivity).
    erewrite xmlFree_eq by (simpl; rewrite lookup_delete_ne; done).
    simpl. by rewrite <-app_assoc.
  - mstep ltac:(by eapply xmlFree_eq).
    mstep ltac:(apply ns_get_eq; simpl; rewrite lookup_delete_ne; done).
    rewrite Hp. mstep ltac:(eapply xmlFree_eq; simpl; rewrite lookup_delete_ne; done).
    erewrite xmlFree_eq by (simpl; rewrite !lookup_delete_ne; done).
    simpl. by rewrite <-!app_assoc.
Qed.

Lemma bind_Fault {A B} (m : M A) (k : A → M B) s :
  m s = Fault → bind m k s = Fault.
Proof. unfold bind. by intros ->. Qed.

Lemma released_snoc ns n :
  ∃ l, released ns n = l ++ [ns].
Proof. unfold released. eexists. by rewrite app_assoc. Qed.

Lemma foldl_delete_insert (m : gmap Z cell) k c l :
  k ∉ l →
  foldl (λ m p, delete p m) (<[k := c]> m) (l ++ [k])
  = foldl (λ m p, delete p m) m (l ++ [k]).
Proof.
  revert m. induction l as [|q l IH]; intros m Hk; simpl.
  - by rewrite delete_insert_eq.
  - apply not_elem_of_cons in Hk as [Hkq Hkl].
    rewrite delete_insert_ne by done. by apply IH.
Qed.

Lemma foldl_delete_last (m : gmap Z cell) k l :
  foldl (λ m p, delete p m) m (l ++ [k]) !! k = None.
Proof. rewrite foldl_app. simpl. apply lookup_delete_eq. Qed.

Lemma live_native_wrapped s s' node c l :
  native s' = <[node := c]> (native s) →
  forallb (live s) l = true →
  forallb (live s') l = true.
Proof.
  intros Hnat. rewrite !forallb_forall. intros H p Hp.
  specialize (H p Hp). unfold live in *.
  apply bool_decide_eq_true in H. apply bool_decide_eq_true.
  rewrite Hnat. destruct (decide (p = node)) as [->|Hne].
  - rewrite lookup_insert_eq. by eexists.
  - by rewrite lookup_insert_ne.
Qed.

(** X6.  When the collector reclaims the wrapper of a node that was wrapped
    with [dealloc_namespace], the outcome is the state from before the wrap
    with the node's blocks freed: the object space is what it was, the href
    buffer, the prefix buffer and the node are gone from native memory, in
    this order in the record of frees, and every other native block is as it
    was. *)
Theorem collecting_detached_wrapper_frees_copy ndebug doc node s n w s1 :
  node ≠ NULL →
  native s !! node = Some (CNs n) →
  xmlNs._private n = NULL →
  forallb (live s) (released node n) = true →
  NoDup (released node n) →
  Nokogiri_wrap_xml_namespace ndebug doc node s = Ok w s1 →
  dfree_of s1 w = Some (Some fn_dealloc_namespace) →
  obj_free w s1
  = Ok tt (mkState (foldl (λ m p, delete p m) (native s) (released node n))
                   (objspace s)
                   (freed s ++ released node n)
                   (cNokogiriXmlNamespace s)).
Proof.
  intros Hnn Hnode Hnew Hlive Hdup Hwrap Hfree.
  destruct (first_wrap_Ok_inv _ _ _ _ _ _ _ Hnode Hnew Hwrap)
    as (-> & Hnat & Hfreed & Hk & doc' & _ & Hshape).
  set (w := rb_newobj_addr (objspace s)) in *.
  assert (objspace s1
          = <[w := wrapper_object s (Some fn_dealloc_namespace)
                     (ivar_of s1 w "@document") node]> (objspace s))
    as Hobjs.
  { unfold dfree_of, ivar_of in *.
    destruct Hshape as [Htest|document Htest Hdoc Hpart
                       |document cache ck civ elts Htest Hdoc Hpart Hne Hary];
      rewrite lookup_insert_eq in *; simpl in *; done. }
  unfold obj_free. rewrite Hobjs at 1. rewrite lookup_insert_eq.
  unfold wrapper_object at 1.
  destruct (Z.eqb_spec node NULL) as [|_]; [done|].
  cbn [call_cfunc].
  assert (native s1 !! node = Some (CNs (xmlNs.set__private w n))) as Hnode1.
  { rewrite Hnat. apply lookup_insert_eq. }
  erewrite bind_Ok.
  2:{ apply (dealloc_namespace_run _ _ _ Hnode1); [|exact Hdup].
      by eapply live_native_wrapped. }
  change (released node (xmlNs.set__private w n)) with (released node n).
  unfold with_objspace. cbn [native objspace freed cNokogiriXmlNamespace].
  rewrite Hfreed, Hk, Hobjs, Hnat. unfold native_wrapped.
  rewrite delete_insert_id by apply rb_newobj_addr_fresh.
  destruct (released_snoc node n) as [l Hl]. rewrite Hl in *.
  rewrite foldl_delete_insert; [done|].
  apply NoDup_app in Hdup as (_ & Hdis & _). intros Hin.
  apply (Hdis node Hin). by left.
Qed.

(** X7.  Nothing resets the node's slot.  When the collector reclaims a
    wrapper whose free function is null, native memory and the record of
    frees are as they were, and a later wrap of the node returns the
    reclaimed address, at which no object lives any more. *)
Theorem slot_survives_collection ndebug doc node s n w s1 ndebug' doc' :
  native s !! node = Some (CNs n) →
  xmlNs._private n = NULL →
  Nokogiri_wrap_xml_namespace ndebug doc node s = Ok w s1 →
  dfree_of s1 w = Some None →
  document_kind_eh s1 doc' = true →
  ∃ s2, obj_free w s1 = Ok tt s2
        ∧ native s2 = native s1
        ∧ freed s2 = freed s1
        ∧ objspace s2 !! w = None
        ∧ Nokogiri_wrap_xml_namespace ndebug' doc' node s2 = Ok w s2.
Proof.
  intros Hnode Hnew Hwrap Hfree Hkind.
  destruct (first_wrap_Ok_inv _ _ _ _ _ _ _ Hnode Hnew Hwrap)
    as (-> & Hnat & _ & _ & doc0 & _ & Hshape).
  set (w := rb_newobj_addr (objspace s)) in *.
  apply first_wrap_objspace_new in Hshape as (free & document & Hw).
  assert (free = None) as ->.
  { unfold dfree_of in Hfree. rewrite Hw in Hfree. simpl in Hfree. congruence. }
  exists (with_objspace (delete w) s1). split.
  { unfold obj_free. rewrite Hw. unfold wrapper_object.
    by destruct (node =? NULL). }
  cbn [with_objspace native freed objspace].
  split; [done|]. split; [done|]. split; [apply lookup_delete_eq|].
  apply (wrap_hit _ _ _ _ (xmlNs.set__private w n)).
  - done.
  - change (native s1 !! node = Some (CNs (xmlNs.set__private w n))).
    rewrite Hnat. apply lookup_insert_eq.
  - apply rb_newobj_addr_not_NULL.
Qed.

(** X8.  [dealloc_namespace] is not to be run twice: after a call that
    freed the node, a second call on the same pointer reads the freed node
    and fails. *)
Theorem dealloc_namespace_twice_fails ns n s :
  native s !! ns = Some (CNs n) →
  forallb (live s) (released ns n) = true →
  NoDup (released ns n) →
  (dealloc_namespace ns ;; dealloc_namespace ns) s = Fault.
Proof.
  intros Hns Hlive Hdup.
  rewrite (bind_Ok _ _ _ _ _ (dealloc_namespace_run _ _ _ Hns Hlive Hdup)).
  unfold dealloc_namespace. apply bind_Fault.
  unfold ns_get, lift_option. cbn [native].
  destruct (released_snoc ns n) as [l ->]. by rewrite foldl_delete_last.
Qed.

(** ** More than one call *)


(** ** Calls that do not return *)

(** X11.  With assertions compiled in, a handle whose record is of any kind
    other than the two document kinds stops the call at the assertion,
    before anything is read from the node: even a node that is already
    wrapped is not returned. *)
Theorem assertion_rejects_other_handles doc d node s :
  native s !! doc = Some (CDoc d) →
  xmlDoc.type d ≠ XML_DOCUMENT_NODE →
  xmlDoc.type d ≠ XML_HTML_DOCUMENT_NODE →
  Nokogiri_wrap_xml_namespace false doc node s = AssertFail.
Proof.
  intros Hdoc H1 H2. unfold Nokogiri_wrap_xml_namespace.
  apply bind_AssertFail. unfold assert.
  rewrite bind_assoc. mstep ltac:(by apply doc_get_eq). rewrite bind_ret.
  destruct (Z.eqb_spec (xmlDoc.type d) XML_DOCUMENT_NODE); [done|].
  by destruct (Z.eqb_spec (xmlDoc.type d) XML_HTML_DOCUMENT_NODE).
Qed.

(** X12.  Nothing checks the node cache before the push: when the document
    object's [@node_cache] is unset, or is not an array, the first wrap of a
    node the classifier takes for a tree node fails at [rb_ary_push]. *)
Theorem tree_node_without_node_cache_fails ndebug s doc node n document o :
  document_kind_eh s doc = true →
  native s !! node = Some (CNs n) →
  xmlNs._private n = NULL →
  host_object s doc = Some document →
  objspace s !! document = Some o →
  ary_of s (default Qnil (ivars o !! "@node_cache")) = None →
  part_of_an_xpath_node_set_eh node s = Ok false s →
  Nokogiri_wrap_xml_namespace ndebug doc node s = Fault.
Proof.
  intros Hkind Hnode Hnew Hhost Ho Hcache Hpart.
  apply host_object_inv in Hhost as (d & t & Hdoc & Hpriv & Htuple & <-).
  unfold Nokogiri_wrap_xml_namespace.
  mstep ltac:(by apply assert_document_kind).
  mstep ltac:(by apply ns_get_eq).
  rewrite Hnew. change (negb (NULL =? NULL)) with false. cbv iota.
  mstep ltac:(by apply doc_get_eq).
  rewrite (document_kind_not_fragment _ _ _ Hkind Hdoc), bind_ret.
  mstep ltac:(by apply DOC_RUBY_OBJECT_TEST_eq).
  destruct (Z.eqb_spec (xmlDoc._private d) NULL) as [|_]; [done|].
  cbn [negb]. cbv iota.
  rewrite bind_assoc. mstep ltac:(by eapply DOC_RUBY_OBJECT_eq).
  rewrite bind_assoc. mstep ltac:(exact Hpart). cbv iota.
  rewrite !bind_assoc, bind_Ok with (a := cNokogiriXmlNamespace s) (s' := s)
    by done.
  rewrite bind_assoc. mstep ltac:(apply Data_Wrap_Struct_eq).
  pose proof (rb_newobj_addr_ne _ _ _ Ho) as Hwo.
  rewrite bind_assoc.
  mstep ltac:(apply (rb_iv_get_eq _ _ o); cbn [with_objspace objspace];
              by rewrite lookup_insert_ne).
  rewrite bind_assoc. apply bind_Fault.
  unfold rb_ary_push, ary_of in *. cbn [with_objspace objspace].
  destruct (decide (default Qnil (ivars o !! "@node_cache")
                    = rb_newobj_addr (objspace s))) as [->|Hne].
  - by rewrite lookup_insert_eq.
  - rewrite lookup_insert_ne by done.
    by destruct (objspace s !! default Qnil (ivars o !! "@node_cache"))
      as [[k iv [| | l |]]|].
Qed.

(** ** The node cache over a run of first wraps *)

Lemma unwrapped_tree_node_inv s node :
  unwrapped_tree_node s node = true →
  ∃ n, native s !! node = Some (CNs n)
       ∧ xmlNs._private n = NULL
       ∧ part_of_an_xpath_node_set_eh node s = Ok false s.
Proof.
  unfold unwrapped_tree_node.
  destruct (native s !! node) as [[n| | | |]|] eqn:Hnode; try done.
  destruct (part_of_an_xpath_node_set_eh node s) as [[] s1| |] eqn:Hpart;
    try done.
  intros Hnew%Z.eqb_eq.
  apply read_only_eq in Hpart as [-> Hpart];
    [|apply read_only_part_of_an_xpath_node_set_eh].
  by exists n.
Qed.

Lemma part_of_an_xpath_node_set_eh_false_inv s node n :
  native s !! node = Some (CNs n) →
  part_of_an_xpath_node_set_eh node s = Ok false s →
  xmlNs.next n = NULL
  ∨ (xmlNs.next n ≠ NULL
     ∧ ∃ c, native s !! xmlNs.next n = Some c
            ∧ cell_type c = Some XML_NAMESPACE_DECL).
Proof.
  intros Hnode. unfold part_of_an_xpath_node_set_eh.
  rewrite (bind_Ok _ _ _ _ _ (ns_get_eq _ _ _ _ Hnode)).
  destruct (Z.eqb_spec (xmlNs.next n) NULL) as [|Hnn]; [by left|].
  intros H. right. split; [done|].
  unfold NOKOGIRI_NAMESPACE_EH in H. rewrite bind_assoc in H.
  apply bind_Ok_inv in H as (ty & s1 & Hty & H).
  unfold node_type, lift_option in Hty.
  destruct (native s !! xmlNs.next n) as [c|]; [|done].
  simpl in Hty. destruct (cell_type c) as [ty'|] eqn:Hc; [|done].
  injection Hty as -> ->. rewrite bind_ret in H. injection H as H.
  exists c. split; [done|].
  destruct (Z.eqb_spec ty XML_NAMESPACE_DECL) as [->|]; done.
Qed.

Lemma unwrapped_tree_node_frame s s1 node n w node' :
  native s !! node = Some (CNs n) →
  native s1 = native_wrapped s node n w →
  node' ≠ node →
  unwrapped_tree_node s node' = true →
  unwrapped_tree_node s1 node' = true.
Proof.
  intros Hnode Hnat Hne (n' & Hnode' & Hnew' & Hpart')%unwrapped_tree_node_inv.
  assert (native s1 !! node' = Some (CNs n')) as Hnode1.
  { rewrite Hnat. unfold native_wrapped. by rewrite lookup_insert_ne. }
  assert (part_of_an_xpath_node_set_eh node' s1 = Ok false s1) as Hpart1.
  { destruct (part_of_an_xpath_node_set_eh_false_inv _ _ _ Hnode' Hpart')
      as [Hnull|(Hnn & c & Hc & Hty)].
    - by apply (part_of_an_xpath_node_set_eh_NULL _ n').
    - assert (∃ c1, native s1 !! xmlNs.next n' = Some c1
                    ∧ cell_type c1 = Some XML_NAMESPACE_DECL)
        as (c1 & Hc1 & Hty1).
      { rewrite Hnat. unfold native_wrapped.
        destruct (decide (xmlNs.next n' = node)) as [E|E].
        - rewrite E in *. rewrite lookup_insert_eq. eexists. split; [done|].
          rewrite Hnode in Hc. by injection Hc as <-.
        - rewrite lookup_insert_ne by done. by exists c. }
      by rewrite (part_of_an_xpath_node_set_eh_next _ _ _ _ _
                    Hnode1 Hnn Hc1 Hty1). }
  unfold unwrapped_tree_node. rewrite Hnode1, Hpart1. by apply Z.eqb_eq.
Qed.

Lemma document_kind_eh_frame s s1 node n w doc :
  native s !! node = Some (CNs n) →
  native s1 = native_wrapped s node n w →
  document_kind_eh s doc = true →
  document_kind_eh s1 doc = true.
Proof.
  intros Hnode Hnat. unfold document_kind_eh, native_wrapped in *.
  rewrite Hnat. destruct (decide (doc = node)) as [->|Hne].
  - by rewrite Hnode.
  - by rewrite lookup_insert_ne.
Qed.

Lemma host_object_frame s s1 node n w doc document :
  native s !! node = Some (CNs n) →
  native s1 = native_wrapped s node n w →
  host_object s doc = Some document →
  host_object s1 doc = Some document.
Proof.
  intros Hnode Hnat (d & t & Hdoc & Hpriv & Htuple & <-)%host_object_inv.
  unfold host_object, native_wrapped in *. rewrite Hnat.
  rewrite lookup_insert_ne by congruence. rewrite Hdoc.
  destruct (Z.eqb_spec (xmlDoc._private d) NULL); [done|].
  rewrite lookup_insert_ne by congruence. by rewrite Htuple.
Qed.

Lemma wrap_nodes_tree ndebug doc document cache nodes :
  ∀ s elts,
    document_kind_eh s doc = true →
    host_object s doc = Some document →
    node_cache s document = Some (cache, elts) →
    NoDup nodes →
    Forall (λ node, unwrapped_tree_node s node = true) nodes →
    ∃ ws s',
      wrap_nodes ndebug doc nodes s = Ok ws s'
      ∧ ary_of s' cache = Some (elts ++ ws)
      ∧ Forall (λ w, objspace s !! w = None) ws
      ∧ NoDup ws
      ∧ Forall2 (λ node w, wraps s' w node = true) nodes ws
      ∧ (∀ a o, objspace s !! a = Some o → (∀ l, body o ≠ T_ARRAY l) →
                objspace s' !! a = Some o).
Proof.
  induction nodes as [|node nodes IH]; intros s elts Hkind Hhost Hcache Hdup Hall.
  { exists [], s. rewrite app_nil_r. split_and!; try done; try constructor.
    unfold node_cache in Hcache.
    destruct (objspace s !! document) as [o|]; [|done].
    destruct (ivars o !! "@node_cache") as [c|]; [|done].
    destruct (ary_of s c) as [l|] eqn:E; [|done]. by injection Hcache as <- <-. }
  apply NoDup_cons in Hdup as [Hnotin Hdup].
  apply Forall_cons in Hall as [Hhead Hall].
  apply unwrapped_tree_node_inv in Hhead as (n & Hnode & Hnew & Hpart).
  destruct (host_object_inv _ _ _ Hhost) as (d & t & Hdoc & Hpriv & Htuple & Ht).
  destruct (node_cache_inv _ _ _ _ Hcache) as (o & ck & civ & Ho & Hiv & Hary).
  rewrite <-Ht in Ho.
  pose proof (first_wrap_tree ndebug s doc node d n Hkind Hdoc Hnode Hnew t
                Hpriv Htuple o cache ck civ elts Hpart Ho Hiv Hary) as Hwrap.
  rewrite Ht in Ho.
  set (w := rb_newobj_addr (objspace s)) in *.
  match type of Hwrap with _ = Ok _ ?st => set (s1 := st) in * end.
  pose proof (rb_newobj_addr_fresh (objspace s)) as Hfresh. fold w in Hfresh.
  assert (w ≠ cache) as Hwc by (intros E; rewrite E in Hfresh; congruence).
  assert (w ≠ document) as Hwd by (intros E; rewrite E in Hfresh; congruence).
  assert (objspace s1 !! w
          = Some (wrapper_object s None (Some (nokogiriTuple.doc t)) node))
    as Hw1 by apply lookup_insert_eq.
  assert (objspace s1 !! cache
          = Some (mkRObject ck civ (T_ARRAY (elts ++ [w])))) as Hc1.
  { subst s1. cbn [objspace]. by rewrite lookup_insert_ne, lookup_insert_eq. }
  assert (∀ a x, objspace s !! a = Some x → is_Some (objspace s1 !! a))
    as Hdom.
  { intros a x Ha. subst s1. cbn [objspace].
    rewrite lookup_insert_ne by (intros <-; congruence).
    destruct (decide (a = cache)) as [->|Hac].
    - rewrite lookup_insert_eq. by eexists.
    - rewrite lookup_insert_ne by done. by eexists. }
  assert (∀ a x, objspace s !! a = Some x → (∀ l, body x ≠ T_ARRAY l) →
                 objspace s1 !! a = Some x) as Hkeep1.
  { intros a x Ha Hx. subst s1. cbn [objspace].
    rewrite lookup_insert_ne by (intros <-; congruence).
    rewrite lookup_insert_ne; [done|]. intros <-.
    rewrite Hary in Ha. injection Ha as <-. by destruct (Hx elts). }
  assert (node_cache s1 document = Some (cache, elts ++ [w])) as Hcache1.
  { unfold node_cache, ary_of. destruct (decide (document = cache)) as [E|E].
    - rewrite E in *. rewrite Hc1.
      rewrite Hary in Ho. injection Ho as <-. simpl in *. by rewrite Hiv, Hc1.
    - assert (objspace s1 !! document = Some o) as ->.
      { subst s1. cbn [objspace]. by rewrite !lookup_insert_ne. }
      by rewrite Hiv, Hc1. }
  destruct (IH s1 (elts ++ [w])) as (ws & s' & Hrun & Hary' & Hnew' & Hdup'
                                      & Hwraps & Hkeep).
  - by apply (document_kind_eh_frame s _ node n w).
  - by apply (host_object_frame s _ node n w).
  - done.
  - done.
  - apply Forall_forall. intros node' Hin.
    apply (unwrapped_tree_node_frame s _ node n w); [done..| |].
    + intros ->. done.
    + by apply (proj1 (Forall_forall _ _) Hall).
  - exists (w :: ws), s'. simpl.
    rewrite (bind_Ok _ _ _ _ _ Hwrap), (bind_Ok _ _ _ _ _ Hrun).
    split; [done|]. split; [by rewrite Hary', <-app_assoc|].
    assert (w ∉ ws) as Hw.
    { intros Hin. apply (proj1 (Forall_forall _ _) Hnew') in Hin. congruence. }
    split_and!.
    + constructor; [done|]. apply Forall_forall. intros w' Hin.
      apply (proj1 (Forall_forall _ _) Hnew') in Hin.
      destruct (objspace s !! w') as [x|] eqn:Hx; [|done].
      destruct (Hdom _ _ Hx) as [y Hy]. congruence.
    + by constructor.
    + constructor; [|done]. unfold wraps.
      rewrite (Hkeep _ _ Hw1) by done. simpl. by apply bool_decide_eq_true.
    + intros a x Ha Hx. apply Hkeep; [|done]. by apply Hkeep1.
Qed.

(** X13.  Wrapping a list of distinct unwrapped tree nodes under a document
    with a Ruby object succeeds for all of them and extends the node cache
    by their wrappers in call order: one new object per node, no object
    twice, each wrapping its own node. *)
Theorem node_cache_gains_wrappers_in_call_order
    ndebug s doc document cache elts nodes :
  document_kind_eh s doc = true →
  host_object s doc = Some document →
  node_cache s document = Some (cache, elts) →
  NoDup nodes →
  Forall (λ node, unwrapped_tree_node s node = true) nodes →
  ∃ ws s',
    wrap_nodes ndebug doc nodes s = Ok ws s'
    ∧ ary_of s' cache = Some (elts ++ ws)
    ∧ NoDup ws
    ∧ Forall (λ w, objspace s !! w = None) ws
    ∧ Forall2 (λ node w, wraps s' w node = true) nodes ws.
Proof.
  intros Hkind Hhost Hcache Hdup Hall.
  destruct (wrap_nodes_tree ndebug doc document cache nodes s elts
              Hkind Hhost Hcache Hdup Hall)
    as (ws & s' & Hrun & Hary & Hnew & Hnodup & Hwraps & _).
  by exists ws, s'.
Qed.

(** X14.  The node cache gains one entry per node, not per call: after the
    first wrap of a tree node has appended its wrapper, any further calls on
    the node, under whatever valid handles, return that wrapper and leave
    the node cache with the single new entry. *)
Theorem node_cache_entry_is_not_repeated
    ndebug s doc docs node n document cache elts :
  document_kind_eh s doc = true →
  Forall (λ doc', document_kind_eh s doc' = true) docs →
  native s !! node = Some (CNs n) →
  xmlNs._private n = NULL →
  host_object s doc = Some document →
  node_cache s document = Some (cache, elts) →
  part_of_an_xpath_node_set_eh node s = Ok false s →
  ∃ w s1 s2,
    Nokogiri_wrap_xml_namespace ndebug doc node s = Ok w s1
    ∧ wrap_each ndebug docs node s1 = Ok (replicate (length docs) w) s2
    ∧ ary_of s2 cache = Some (elts ++ [w]).
Proof.
  intros Hkind Hdocs Hnode Hnew Hhost Hcache Hpart.
  destruct (host_object_inv _ _ _ Hhost) as (d & t & Hdoc & Hpriv & Htuple & Ht).
  destruct (node_cache_inv _ _ _ _ Hcache) as (o & ck & civ & Ho & Hiv & Hary).
  rewrite <-Ht in Ho.
  pose proof (first_wrap_tree ndebug s doc node d n Hkind Hdoc Hnode Hnew t
                Hpriv Htuple o cache ck civ elts Hpart Ho Hiv Hary) as Hwrap.
  set (w := rb_newobj_addr (objspace s)) in *.
  match type of Hwrap with _ = Ok _ ?st => set (s1 := st) in * end.
  exists w, s1, s1. split; [done|]. split.
  - apply (wrap_each_hit _ _ _ _ (xmlNs.set__private w n)).
    + eapply Forall_impl; [exact Hdocs|]. intros doc' Hk.
      by apply (document_kind_eh_frame s _ node n w).
    + apply lookup_insert_eq.
    + apply rb_newobj_addr_not_NULL.
  - unfold ary_of. subst s1. cbn [objspace].
    rewrite lookup_insert_ne, lookup_insert_eq; [done|].
    intros E. pose proof (rb_newobj_addr_fresh (objspace s)) as Hf.
    fold w in Hf. rewrite E in Hf. congruence.
Qed.

(** ** These statements on the scene *)

Lemma wrap_writes_only_the_slot_scene :
  let s' := state_after (Nokogiri_wrap_xml_namespace false 100 200) scene in
  40 ≠ NULL
  ∧ freed s' = freed scene
  ∧ cNokogiriXmlNamespace s' = cNokogiriXmlNamespace scene
  ∧ ∃ n, native scene !! 200 = Some (CNs n)
         ∧ native s' = <[200 := CNs (xmlNs.set__private 40 n)]> (native scene).
Proof.
  apply (wrap_writes_only_the_slot false 100 200 scene 40).
  vm_compute. reflexivity.
Defined.

Lemma first_wrap_returns_new_data_object_scene :
  let s' := state_after (Nokogiri_wrap_xml_namespace false 100 200) scene in
  objspace scene !! 40 = None
  ∧ 40 ≠ Qnil
  ∧ ∃ iv free,
      objspace s' !! 40
      = Some (mkRObject (cNokogiriXmlNamespace scene) iv (T_DATA None free 200)).
Proof.
  apply (first_wrap_returns_new_data_object false 100 200 scene ns_default 40);
    vm_compute; reflexivity.
Defined.

Lemma real_destructor_iff_host_and_copy_scene :
  let s' := state_after (Nokogiri_wrap_xml_namespace false 100 300) scene in
  dfree_of s' 40 = Some (Some fn_dealloc_namespace)
  ↔ ∃ doc', owning_document scene 100 = Some doc'
            ∧ DOC_RUBY_OBJECT_TEST doc' scene = Ok true scene
            ∧ part_of_an_xpath_node_set_eh 300 scene = Ok true scene.
Proof.
  apply (real_destructor_iff_host_and_copy false 100 300 scene ns_copy 40);
    vm_compute; reflexivity.
Defined.

Lemma null_or_namespace_next_never_detached_scene :
  let s' := state_after (Nokogiri_wrap_xml_namespace false 100 200) scene in
  dfree_of s' 40 = Some None.
Proof.
  apply (null_or_namespace_next_never_detached false 100 200 scene ns_default 40).
  - vm_compute. reflexivity.
  - vm_compute. reflexivity.
  - right. vm_compute. reflexivity.
  - vm_compute. reflexivity.
Defined.

Lemma wrap_only_appends_to_one_array_scene :
  let s' := state_after (Nokogiri_wrap_xml_namespace false 100 200) scene in
  (∀ a, ary_of s' a = ary_of scene a)
  ∨ (∃ cache elts,
       ary_of scene cache = Some elts
       ∧ ary_of s' cache = Some (elts ++ [40])
       ∧ ∀ a, a ≠ cache → ary_of s' a = ary_of scene a).
Proof.
  apply (wrap_only_appends_to_one_array false 100 200 scene 40).
  vm_compute. reflexivity.
Defined.

Lemma collecting_detached_wrapper_frees_copy_scene :
  let s1 := state_after (Nokogiri_wrap_xml_namespace false 100 300) scene in
  obj_free 40 s1
  = Ok tt (mkState (delete 300 (delete 302 (delete 301 (native scene))))
                   (objspace scene) [301; 302; 300] 32).
Proof.
  apply (collecting_detached_wrapper_frees_copy false 100 300 scene ns_copy 40).
  - discriminate.
  - vm_compute. reflexivity.
  - vm_compute. reflexivity.
  - vm_compute. reflexivity.
  - apply (bool_decide_unpack _). vm_compute. exact I.
  - vm_compute. reflexivity.
  - vm_compute. reflexivity.
Defined.

Lemma slot_survives_collection_scene :
  let s1 := state_after (Nokogiri_wrap_xml_namespace false 500 300) scene in
  ∃ s2, obj_free 40 s1 = Ok tt s2
        ∧ native s2 = native s1
        ∧ freed s2 = freed s1
        ∧ objspace s2 !! 40 = None
        ∧ Nokogiri_wrap_xml_namespace false 100 300 s2 = Ok 40 s2.
Proof.
  apply (slot_survives_collection false 500 300 scene ns_copy 40 _ false 100);
    vm_compute; reflexivity.
Defined.

Lemma dealloc_namespace_twice_fails_scene :
  (dealloc_namespace 300 ;; dealloc_namespace 300) scene = Fault.
Proof.
  apply (dealloc_namespace_twice_fails 300 ns_copy scene).
  - vm_compute. reflexivity.
  - vm_compute. reflexivity.
  - apply (bool_decide_unpack _). vm_compute. exact I.
Defined.


Lemma assertion_rejects_other_handles_scene :
  Nokogiri_wrap_xml_namespace false 600
    200 (state_after (Nokogiri_wrap_xml_namespace false 100 200) scene)
  = AssertFail.
Proof.
  apply (assertion_rejects_other_handles 600 doc_fragment 200).
  - vm_compute. reflexivity.
  - discriminate.
  - discriminate.
Defined.

Lemma tree_node_without_node_cache_fails_scene :
  Nokogiri_wrap_xml_namespace false 100 200 scene_without_node_cache = Fault.
Proof.
  apply (tree_node_without_node_cache_fails false scene_without_node_cache
           100 200 ns_default 16 (mkRObject 8016 ∅ (T_DATA None None 100)));
    vm_compute; reflexivity.
Defined.

Lemma node_cache_gains_wrappers_in_call_order_scene :
  ∃ ws s',
    wrap_nodes false 100 [200; 210] scene = Ok ws s'
    ∧ ary_of s' 24 = Some ([] ++ ws)
    ∧ NoDup ws
    ∧ Forall (λ w, objspace scene !! w = None) ws
    ∧ Forall2 (λ node w, wraps s' w node = true) [200; 210] ws.
Proof.
  apply (node_cache_gains_wrappers_in_call_order false scene 100 16 24 []
           [200; 210]).
  - vm_compute. reflexivity.
  - vm_compute. reflexivity.
  - vm_compute. reflexivity.
  - apply (bool_decide_unpack _). vm_compute. exact I.
  - repeat constructor; vm_compute; reflexivity.
Defined.

Lemma node_cache_entry_is_not_repeated_scene :
  ∃ w s1 s2,
    Nokogiri_wrap_xml_namespace false 100 200 scene = Ok w s1
    ∧ wrap_each false [100; 500] 200 s1 = Ok (replicate 2 w) s2
    ∧ ary_of s2 24 = Some ([] ++ [w]).
Proof.
  apply (node_cache_entry_is_not_repeated false scene 100 [100; 500] 200
           ns_default 16 24 []).
  - vm_compute. reflexivity.
  - repeat constructor; vm_compute; reflexivity.
  - vm_compute. reflexivity.
  - vm_compute. reflexivity.
  - vm_compute. reflexivity.
  - vm_compute. reflexivity.
  - vm_compute. reflexivity.
Defined.
